(** * The codapt client: a remote-execution agent

    A shallow embedding of the two variants of the client program
    ([src/unnamed/part_000] and [src/src/main.ts]) as event-loop state
    machines, and the properties of its command execution, of its
    loading indicator and of its socket handlers.

    The Node runtime is the environment: it delivers socket events,
    timer expirations, chunks of standard input and the events of child
    processes, one at a time; every handler runs to completion.  What a
    handler does to the outside (terminal writes, log lines,
    acknowledgments, what it asks of [exec] and of the child's stdin) is
    recorded, in order, in the [trace] of the world. *)

From Stdlib Require Import Ascii.
From stdpp Require Import gmap strings list pretty.

(** ** Runtime: values, effects, the world and its primitive actions *)

Module Runtime.

(** [interface CommandResponse] (the same in both variants). *)
Record CommandResponse := mkResponse {
  exitCode : Z;
  stdout : string;
  stderr : string }.

(** [interface EnvInfo].  [env] is [process.env]: a variable that is not
    set has no entry. *)
Record EnvInfo := mkEnvInfo {
  argv : list string;
  env : gmap string string;
  cwd : string;
  pid : Z }.

(** The [error] argument of the callback of [exec] ([ExecException]):
    [code] is the exit status when the child exited with one, and is
    absent when the child was ended by a signal. *)
Record ExecException := mkExecException {
  code : option Z;
  killed : bool;
  signal : option string }.

(** What a promise of [runCommand] can be rejected with: the object built
    by the ['error'] listener, or an [Error] thrown in the executor. *)
Inductive Rejection :=
| RejectedWith (r : CommandResponse)
| Thrown (message : string).

(** What an acknowledgment callback is called with. *)
Inductive AckValue :=
| AckVoid
| AckEnvInfo (info : EnvInfo)
| AckResponse (r : CommandResponse)
| AckError (message : string)
| AckLine (line : string).

Inductive Effect :=
| StdoutWrite (s : string)                       (* process.stdout.write(s) *)
| ConsoleLog (s : string)                        (* console.log(s) *)
| Ack (callback : nat) (v : AckValue)            (* callback(v) *)
| StdinResume                                    (* process.stdin.resume() *)
| StdinSetEncoding (enc : string)                (* process.stdin.setEncoding(enc) *)
| StdinPause                                     (* process.stdin.pause() *)
| Connect (url : string) (timeout : option Z)    (* connect(url, opts) *)
| Exec (child : nat) (command : string) (timeout : option Z)
                                                 (* exec(command, { timeout }, cb) *)
| ChildStdinWrite (child : nat) (s : string)     (* child.stdin.write(s) *)
| ChildStdinEnd (child : nat)                    (* child.stdin.end() *)
| ProcessExit (status : Z).                      (* process.exit(status) *)

(** The two closures the program hands to the timers of the runtime.
    [Spinner text i] is the arrow function given to [setInterval] in
    [startLoading], with the [text] and the counter [i] it captured;
    [Deadline] is [() => { stopLoading(); }], given to [setTimeout]. *)
Inductive Closure :=
| Spinner (text : string) (i : nat)
| Deadline.

Record TimerEntry := mkTimer {
  callback : Closure;
  delay : Z;
  repeat : bool }.

(** The promise made by one call of [runCommand], with what the handler
    attached to it: [reaction] holds the [payload.command] and the
    acknowledgment that the [.then]/[.catch] callbacks captured. *)
Inductive PromiseState :=
| Pending
| Resolved (r : CommandResponse)
| Rejected (e : Rejection).

Record Child := mkChild {
  promise : PromiseState;
  error_listener : bool;
  reaction : option (string * nat) }.

Record World := mkWorld {
  proc : EnvInfo;
  loadingInterval : option nat;
  lastLoadingLineWritten : string;
  timers : gmap nat TimerEntry;
  next_timer : nat;
  stdin_flowing : bool;
  stdin_once : list nat;
  children : gmap nat Child;
  next_child : nat;
  trace : list Effect;
  exited : option Z }.

Definition set_loadingInterval (v : option nat) (w : World) : World :=
  mkWorld (proc w) v (lastLoadingLineWritten w) (timers w) (next_timer w)
    (stdin_flowing w) (stdin_once w) (children w) (next_child w) (trace w) (exited w).

Definition set_lastLoadingLineWritten (v : string) (w : World) : World :=
  mkWorld (proc w) (loadingInterval w) v (timers w) (next_timer w)
    (stdin_flowing w) (stdin_once w) (children w) (next_child w) (trace w) (exited w).

Definition set_timers (v : gmap nat TimerEntry) (w : World) : World :=
  mkWorld (proc w) (loadingInterval w) (lastLoadingLineWritten w) v (next_timer w)
    (stdin_flowing w) (stdin_once w) (children w) (next_child w) (trace w) (exited w).

Definition set_next_timer (v : nat) (w : World) : World :=
  mkWorld (proc w) (loadingInterval w) (lastLoadingLineWritten w) (timers w) v
    (stdin_flowing w) (stdin_once w) (children w) (next_child w) (trace w) (exited w).

Definition set_stdin_flowing (v : bool) (w : World) : World :=
  mkWorld (proc w) (loadingInterval w) (lastLoadingLineWritten w) (timers w) (next_timer w)
    v (stdin_once w) (children w) (next_child w) (trace w) (exited w).

Definition set_stdin_once (v : list nat) (w : World) : World :=
  mkWorld (proc w) (loadingInterval w) (lastLoadingLineWritten w) (timers w) (next_timer w)
    (stdin_flowing w) v (children w) (next_child w) (trace w) (exited w).

Definition set_children (v : gmap nat Child) (w : World) : World :=
  mkWorld (proc w) (loadingInterval w) (lastLoadingLineWritten w) (timers w) (next_timer w)
    (stdin_flowing w) (stdin_once w) v (next_child w) (trace w) (exited w).

Definition set_next_child (v : nat) (w : World) : World :=
  mkWorld (proc w) (loadingInterval w) (lastLoadingLineWritten w) (timers w) (next_timer w)
    (stdin_flowing w) (stdin_once w) (children w) v (trace w) (exited w).

Definition set_trace (v : list Effect) (w : World) : World :=
  mkWorld (proc w) (loadingInterval w) (lastLoadingLineWritten w) (timers w) (next_timer w)
    (stdin_flowing w) (stdin_once w) (children w) (next_child w) v (exited w).

Definition set_exited (v : option Z) (w : World) : World :=
  mkWorld (proc w) (loadingInterval w) (lastLoadingLineWritten w) (timers w) (next_timer w)
    (stdin_flowing w) (stdin_once w) (children w) (next_child w) (trace w) v.

(** The process as it starts: nothing armed, nothing written. *)
Definition boot (p : EnvInfo) : World :=
  mkWorld p None "" ∅ 0 false [] ∅ 0 [] None.

(** *** The state monad of the handlers *)

Definition M (A : Type) : Type := World → A * World.

Global Instance M_ret : MRet M := λ A a w, (a, w).
Global Instance M_bind : MBind M := λ A B k m w, k (m w).1 (m w).2.

Definition gets {A} (f : World → A) : M A := λ w, (f w, w).
Definition modify (f : World → World) : M unit := λ w, (tt, f w).
Definition exec_M {A} (m : M A) (w : World) : World := snd (m w).
Definition when (b : bool) (m : M unit) : M unit := if b then m else mret tt.

(** *** JavaScript helpers *)

(** Truthiness of a [string | undefined] and of a handle-or-[null]. *)
Definition truthy_string (v : option string) : bool :=
  match v with
  | Some s => if decide (s = "") then false else true
  | None => false
  end.

Definition truthy_handle (v : option nat) : bool :=
  match v with Some _ => true | None => false end.

(** [`${n}`] for a [number | null] holding an integer. *)
Definition template_number (v : option Z) : string :=
  match v with Some n => pretty n | None => "null" end.

(** *** Primitive actions of the runtime *)

Definition emit (e : Effect) : M unit := modify (λ w, set_trace (trace w ++ [e]) w).

Definition stdout_write (s : string) : M unit := emit (StdoutWrite s).
Definition console_log (s : string) : M unit := emit (ConsoleLog s).
Definition acknowledge (cb : nat) (v : AckValue) : M unit := emit (Ack cb v).

Definition arm (e : TimerEntry) : M nat :=
  h ← gets next_timer;
  modify (λ w, set_next_timer (S h) (set_timers (<[h := e]> (timers w)) w));;
  mret h.

Definition setTimeout (cb : Closure) (ms : Z) : M nat := arm (mkTimer cb ms false).
Definition setInterval (cb : Closure) (ms : Z) : M nat := arm (mkTimer cb ms true).
Definition clearInterval (h : nat) : M unit :=
  modify (λ w, set_timers (delete h (timers w)) w).

Definition process_exit (status : Z) : M unit :=
  emit (ProcessExit status);; modify (set_exited (Some status)).

Definition stdin_resume : M unit :=
  emit StdinResume;; modify (set_stdin_flowing true).
Definition stdin_setEncoding (enc : string) : M unit := emit (StdinSetEncoding enc).
Definition stdin_pause : M unit :=
  emit StdinPause;; modify (set_stdin_flowing false).
Definition stdin_once_data (cb : nat) : M unit :=
  modify (λ w, set_stdin_once (stdin_once w ++ [cb]) w).

End Runtime.

(** ** The helper functions that both variants have, word for word *)

Module Helpers.
Import Runtime.

(** [function debugLog(message)]. *)
Definition debugLog (message : string) : M unit :=
  dbg ← gets (λ w, env (proc w) !! "CODAPT_DEBUG");
  when (truthy_string dbg) (console_log ("[CODAPT CLIENT DEBUG] " +:+ message)).

Definition ESC : string := String "027"%char EmptyString.

(** [function clearLine()]: column 0, erase the line. *)
Definition clearLine : M unit :=
  stdout_write (ESC +:+ "[0G" +:+ ESC +:+ "[2K").

(** [function stopLoading()]. *)
Definition stopLoading : M unit :=
  li ← gets loadingInterval;
  match li with
  | Some h =>
      clearInterval h;;
      modify (set_loadingInterval None);;
      clearLine
  | None => mret tt
  end.

Definition spinnerChars : list string := ["|"; "/"; "-"; "\"].

(** [spinnerChars[i]! + " " + text]; an index out of range reads
    [undefined]. *)
Definition spinner_line (i : nat) (text : string) : string :=
  default "undefined" (spinnerChars !! i) +:+ " " +:+ text.

(** *** The promise of [runCommand] and what the handler chains on it *)

(** [.then((response) => { debugLog(`Command succeeded: ...`); callback(response); })]
    and [.catch((error) => { debugLog(`Command failed: ...`); callback(error); })]. *)
Definition then_callback (command : string) (cb : nat) (response : CommandResponse) : M unit :=
  debugLog ("Command succeeded: " +:+ command);;
  acknowledge cb (AckResponse response).

Definition ack_of_rejection (e : Rejection) : AckValue :=
  match e with
  | RejectedWith r => AckResponse r
  | Thrown message => AckError message
  end.

Definition catch_callback (command : string) (cb : nat) (error : Rejection) : M unit :=
  debugLog ("Command failed: " +:+ command);;
  acknowledge cb (ack_of_rejection error).

Definition run_reaction (c : Child) : M unit :=
  match reaction c, promise c with
  | Some (command, cb), Resolved r => then_callback command cb r
  | Some (command, cb), Rejected e => catch_callback command cb e
  | _, _ => mret tt
  end.

(** A promise settles once: [resolve] and [reject] on a settled promise
    do nothing. *)
Definition settle (c : nat) (s : PromiseState) : M unit :=
  ch ← gets (λ w, children w !! c);
  match ch with
  | Some child =>
      match promise child with
      | Pending =>
          let child' := mkChild s (error_listener child) (reaction child) in
          modify (λ w, set_children (<[c := child']> (children w)) w);;
          run_reaction child'
      | _ => mret tt
      end
  | None => mret tt
  end.

Definition resolve (c : nat) (r : CommandResponse) : M unit := settle c (Resolved r).
Definition reject (c : nat) (e : Rejection) : M unit := settle c (Rejected e).

(** [error.code || -1], for [code?: number]. *)
Definition code_or_minus_one (code : option Z) : Z :=
  match code with
  | Some n => if decide (n = 0%Z) then (-1)%Z else n
  | None => (-1)%Z
  end.

(** The callback given to [exec]: [(error, stdout, stderr) => { ... }]. *)
Definition exec_callback (c : nat) (error : option ExecException)
    (out err : string) : M unit :=
  match error with
  | Some e => resolve c (mkResponse (code_or_minus_one (code e)) out err)
  | None => resolve c (mkResponse 0 out err)
  end.

(** [child.on("error", (err) => { reject({ ... }); })], called with
    [err.message]. *)
Definition on_child_error (c : nat) (message : string) : M unit :=
  reject c (RejectedWith (mkResponse (-1) "" message)).

(** [exec(command, { timeout: timeoutMs ?? undefined }, cb)]: a new child,
    its promise pending. *)
Definition exec (command : string) (timeoutMs : option Z) : M nat :=
  c ← gets next_child;
  modify (λ w, set_next_child (S c)
                 (set_children (<[c := mkChild Pending false None]> (children w)) w));;
  emit (Exec c command timeoutMs);;
  mret c.

Definition listen_error (c : nat) : M unit :=
  modify (λ w, set_children (alter (λ ch, mkChild (promise ch) true (reaction ch)) c
                               (children w)) w).

(** Chaining [.then(...).catch(...)] on the promise: the callbacks of a
    promise that is already settled run once the handler has returned,
    before any other event. *)
Definition chain (c : nat) (command : string) (cb : nat) : M unit :=
  modify (λ w, set_children (alter (λ ch, mkChild (promise ch) (error_listener ch)
                                            (Some (command, cb))) c (children w)) w);;
  ch ← gets (λ w, children w !! c);
  match ch with
  | Some child => run_reaction child
  | None => mret tt
  end.

(** The ['data'] listener set by [process.stdin.once]:
    [(text) => { process.stdin.pause(); callback(text) }]. *)
Definition on_stdin_data (cb : nat) (text : string) : M unit :=
  stdin_pause;;
  acknowledge cb (AckLine text).

Fixpoint for_each {A} (f : A → M unit) (l : list A) : M unit :=
  match l with
  | [] => mret tt
  | a :: l' => f a;; for_each f l'
  end.

(** A chunk arrives on standard input.  A paused stream emits nothing;
    a flowing one calls the listeners it has, all of them set with
    [once], and so removed first. *)
Definition stdin_data (text : string) : M unit :=
  flowing ← gets stdin_flowing;
  when flowing (
    ls ← gets stdin_once;
    modify (set_stdin_once []);;
    for_each (λ cb, on_stdin_data cb text) ls).

End Helpers.

(** ** The variant of [src/unnamed/part_000] *)

Module Part000.
Import Runtime Helpers.

Definition DEFAULT_SERVER : string := "https://client-socket.codapt.ai/".

(** [interface CommandPayload]. *)
Record CommandPayload := mkPayload {
  command : string;
  stdin : option string;
  timeoutMs : option Z }.

(** The events the program has a handler for: [interface
    ServerToClientEvents], each with its acknowledgment when it has one,
    and the [connect] and [disconnect] of the socket itself.
    [child_stdin] of [OnRunCommand] is the answer of the platform at the
    call of [exec]: whether the child it returns has a stdin stream
    ([child.stdin != null]). *)
Inductive ServerEvent :=
| OnConnect
| OnGetEnvInfo (cb : nat)
| OnRunCommand (payload : CommandPayload) (cb : nat) (child_stdin : bool)
| OnPrint (text : string) (cb : nat)
| OnReadStdin (cb : nat)
| OnStartLoading (text : string) (timeoutMs : option Z) (cb : nat)
| OnStopLoading (cb : nat)
| OnTerminate
| OnDisconnect.

Inductive Event :=
| Socket (e : ServerEvent)
| TimerFire (h : nat)
| StdinData (chunk : string)
| ExecCallback (c : nat) (error : option ExecException) (out err : string)
| ChildError (c : nat) (message : string).

(** [const runCommand = (payload) => new Promise((resolve, reject) => { ... })].
    The executor runs at once; an exception thrown in it rejects the
    promise and ends the executor. *)
Definition runCommand (payload : CommandPayload) (child_stdin : bool) : M nat :=
  child ← exec (command payload) (timeoutMs payload);
  match stdin payload with
  | Some s =>
      if child_stdin then
        emit (ChildStdinWrite child s);;
        emit (ChildStdinEnd child);;
        listen_error child;;
        mret child
      else
        reject child (Thrown "unexpected: child.stdin is null");;
        mret child
  | None =>
      listen_error child;;
      mret child
  end.

(** [function writeLastLoadingLine()]. *)
Definition writeLastLoadingLine : M unit :=
  l ← gets lastLoadingLineWritten;
  stdout_write l.

(** [function startLoading(text, timeoutMs)]. *)
Definition startLoading (text : string) (timeoutMs : option Z) : M unit :=
  stopLoading;;
  debugLog ("Starting loading: " +:+ text +:+ " with timeoutMs=" +:+ template_number timeoutMs);;
  match timeoutMs with
  | Some ms => setTimeout Deadline ms;; mret tt
  | None => mret tt
  end;;
  h ← setInterval (Spinner text 0) 100;
  modify (set_loadingInterval (Some h)).

(** The body of the interval callback of [startLoading], run for the
    timer [h] whose closure holds [text] and [i]. *)
Definition spinner_tick (h : nat) (text : string) (i : nat) : M unit :=
  clearLine;;
  modify (set_lastLoadingLineWritten (spinner_line i text));;
  writeLastLoadingLine;;
  modify (λ w, set_timers
                 (alter (λ e, mkTimer (Spinner text (S i mod length spinnerChars))
                                      (delay e) (repeat e)) h (timers w)) w).

Definition run_closure (h : nat) (c : Closure) : M unit :=
  match c with
  | Spinner text i => spinner_tick h text i
  | Deadline => stopLoading
  end.

(** A timer expires: a timeout is disarmed as it fires, an interval stays. *)
Definition fire (h : nat) : M unit :=
  t ← gets (λ w, timers w !! h);
  match t with
  | Some e =>
      when (negb (repeat e)) (clearInterval h);;
      run_closure h (callback e)
  | None => mret tt
  end.

(** *** Socket handlers *)

Definition on_connect : M unit :=
  stopLoading;;
  debugLog "Connected to server".

Definition on_getEnvInfo (cb : nat) : M unit :=
  debugLog "Received getEnvInfo request";;
  envInfo ← gets proc;
  acknowledge cb (AckEnvInfo envInfo).

Definition on_runCommand (payload : CommandPayload) (cb : nat) (child_stdin : bool) : M unit :=
  debugLog ("Received command: " +:+ command payload);;
  p ← runCommand payload child_stdin;
  chain p (command payload) cb.

Definition on_print (text : string) (cb : nat) : M unit :=
  li ← gets loadingInterval;
  when (truthy_handle li) clearLine;;
  stdout_write text;;
  li' ← gets loadingInterval;
  when (truthy_handle li') writeLastLoadingLine;;
  acknowledge cb AckVoid.

Definition on_readStdin (cb : nat) : M unit :=
  stopLoading;;
  stdin_resume;;
  stdin_setEncoding "utf8";;
  stdin_once_data cb.

Definition on_startLoading (text : string) (timeoutMs : option Z) (cb : nat) : M unit :=
  startLoading text timeoutMs;;
  acknowledge cb AckVoid.

Definition on_stopLoading (cb : nat) : M unit :=
  stopLoading;;
  debugLog "Stopping loading";;
  acknowledge cb AckVoid.

Definition on_terminate : M unit :=
  debugLog "Terminating";;
  process_exit 0.

Definition on_disconnect : M unit :=
  debugLog "Disconnected from server, terminating...";;
  process_exit 0.

Definition handle (e : ServerEvent) : M unit :=
  match e with
  | OnConnect => on_connect
  | OnGetEnvInfo cb => on_getEnvInfo cb
  | OnRunCommand payload cb child_stdin => on_runCommand payload cb child_stdin
  | OnPrint text cb => on_print text cb
  | OnReadStdin cb => on_readStdin cb
  | OnStartLoading text t cb => on_startLoading text t cb
  | OnStopLoading cb => on_stopLoading cb
  | OnTerminate => on_terminate
  | OnDisconnect => on_disconnect
  end.

Definition dispatch (ev : Event) : M unit :=
  match ev with
  | Socket e => handle e
  | TimerFire h => fire h
  | StdinData chunk => stdin_data chunk
  | ExecCallback c error out err => exec_callback c error out err
  | ChildError c message =>
      ch ← gets (λ w, children w !! c);
      match ch with
      | Some child => when (error_listener child) (on_child_error c message)
      | None => mret tt
      end
  end.

(** One turn of the event loop.  After [process.exit] nothing runs. *)
Definition step (w : World) (ev : Event) : World :=
  match exited w with
  | Some _ => w
  | None => exec_M (dispatch ev) w
  end.

Definition run (w : World) (evs : list Event) : World := foldl step w evs.

(** [async function main()], up to the registration of the handlers. *)
Definition main : M unit :=
  startLoading "Connecting to server..." (Some 5000%Z);;
  override ← gets (λ w, env (proc w) !! "CODAPT_SERVER");
  let server := if truthy_string override then default "" override else DEFAULT_SERVER in
  emit (Connect server (Some 5000%Z)).

Definition start (p : EnvInfo) : World := exec_M main (boot p).

End Part000.

(** ** The variant of [src/src/main.ts] *)

Module MainTs.
Import Runtime Helpers.

Definition DEFAULT_SERVER : string := "https://client-socket.codapt.ai/".

(** [interface CommandPayload]: this variant has no [stdin] field. *)
Record CommandPayload := mkPayload {
  command : string;
  timeoutMs : option Z }.

(** [interface ServerToClientEvents] of this variant, with the [connect]
    and [disconnect] of the socket. *)
Inductive ServerEvent :=
| OnConnect
| OnGetEnvInfo (cb : nat)
| OnRunCommand (payload : CommandPayload) (cb : nat)
| OnEmitToStdout (text : string) (cb : nat)
| OnReadLine (cb : nat)
| OnStartLoading (text : string) (timeoutMs : option Z) (cb : nat)
| OnStopLoading (cb : nat)
| OnTerminate
| OnDisconnect.

Inductive Event :=
| Socket (e : ServerEvent)
| TimerFire (h : nat)
| StdinData (chunk : string)
| ExecCallback (c : nat) (error : option ExecException) (out err : string)
| ChildError (c : nat) (message : string).

(** [const runCommand = (payload) => new Promise(...)]: nothing is done
    with the stdin of the child. *)
Definition runCommand (payload : CommandPayload) : M nat :=
  child ← exec (command payload) (timeoutMs payload);
  listen_error child;;
  mret child.

(** [function startLoading(text, timeoutMs)]. *)
Definition startLoading (text : string) (timeoutMs : option Z) : M unit :=
  stopLoading;;
  debugLog ("Starting loading: " +:+ text +:+ " with timeout " +:+ template_number timeoutMs +:+ "ms");;
  match timeoutMs with
  | Some ms => setTimeout Deadline ms;; mret tt
  | None => mret tt
  end;;
  h ← setInterval (Spinner text 0) 100;
  modify (set_loadingInterval (Some h)).

(** The body of the interval callback of [startLoading]. *)
Definition spinner_tick (h : nat) (text : string) (i : nat) : M unit :=
  clearLine;;
  stdout_write (spinner_line i text);;
  modify (λ w, set_timers
                 (alter (λ e, mkTimer (Spinner text (S i mod length spinnerChars))
                                      (delay e) (repeat e)) h (timers w)) w).

Definition run_closure (h : nat) (c : Closure) : M unit :=
  match c with
  | Spinner text i => spinner_tick h text i
  | Deadline => stopLoading
  end.

Definition fire (h : nat) : M unit :=
  t ← gets (λ w, timers w !! h);
  match t with
  | Some e =>
      when (negb (repeat e)) (clearInterval h);;
      run_closure h (callback e)
  | None => mret tt
  end.

(** *** Socket handlers *)

Definition on_connect : M unit :=
  debugLog "Connected to server, sending start event".

Definition on_getEnvInfo (cb : nat) : M unit :=
  debugLog "Received getEnvInfo request";;
  envInfo ← gets proc;
  acknowledge cb (AckEnvInfo envInfo).

Definition on_runCommand (payload : CommandPayload) (cb : nat) : M unit :=
  debugLog ("Received command: " +:+ command payload);;
  p ← runCommand payload;
  chain p (command payload) cb.

Definition on_emitToStdout (text : string) (cb : nat) : M unit :=
  stopLoading;;
  stdout_write text;;
  acknowledge cb AckVoid.

Definition on_readLine (cb : nat) : M unit :=
  stopLoading;;
  stdin_resume;;
  stdin_setEncoding "utf8";;
  stdin_once_data cb.

Definition on_startLoading (text : string) (timeoutMs : option Z) (cb : nat) : M unit :=
  startLoading text timeoutMs;;
  acknowledge cb AckVoid.

Definition on_stopLoading (cb : nat) : M unit :=
  stopLoading;;
  debugLog "Stopping loading";;
  acknowledge cb AckVoid.

Definition on_terminate : M unit :=
  debugLog "Terminating";;
  process_exit 0.

Definition on_disconnect : M unit :=
  debugLog "Disconnected from server.".

Definition handle (e : ServerEvent) : M unit :=
  match e with
  | OnConnect => on_connect
  | OnGetEnvInfo cb => on_getEnvInfo cb
  | OnRunCommand payload cb => on_runCommand payload cb
  | OnEmitToStdout text cb => on_emitToStdout text cb
  | OnReadLine cb => on_readLine cb
  | OnStartLoading text t cb => on_startLoading text t cb
  | OnStopLoading cb => on_stopLoading cb
  | OnTerminate => on_terminate
  | OnDisconnect => on_disconnect
  end.

Definition dispatch (ev : Event) : M unit :=
  match ev with
  | Socket e => handle e
  | TimerFire h => fire h
  | StdinData chunk => stdin_data chunk
  | ExecCallback c error out err => exec_callback c error out err
  | ChildError c message =>
      ch ← gets (λ w, children w !! c);
      match ch with
      | Some child => when (error_listener child) (on_child_error c message)
      | None => mret tt
      end
  end.

Definition step (w : World) (ev : Event) : World :=
  match exited w with
  | Some _ => w
  | None => exec_M (dispatch ev) w
  end.

Definition run (w : World) (evs : list Event) : World := foldl step w evs.

(** The top level of the module, up to the registration of the handlers:
    [connect(server)]. *)
Definition main : M unit :=
  override ← gets (λ w, env (proc w) !! "CODAPT_SERVER");
  let server := if truthy_string override then default "" override else DEFAULT_SERVER in
  emit (Connect server None).

Definition start (p : EnvInfo) : World := exec_M main (boot p).

End MainTs.

(** ** Vocabulary of the properties *)

Module Vocabulary.
Import Runtime Helpers.

Definition tag : string := "[CODAPT CLIENT DEBUG] ".

(** The debug toggle: [process.env.CODAPT_DEBUG] is truthy. *)
Definition debug_enabled (w : World) : bool :=
  truthy_string (env (proc w) !! "CODAPT_DEBUG").

(** What [debugLog message] adds to the trace of [w]. *)
Definition logged (w : World) (message : string) : list Effect :=
  if debug_enabled w then [ConsoleLog (tag +:+ message)] else [].

Definition clear_sequence : string := ESC +:+ "[0G" +:+ ESC +:+ "[2K".

Definition is_log (e : Effect) : bool :=
  match e with ConsoleLog _ => true | _ => false end.

Definition is_child_stdin (e : Effect) : bool :=
  match e with ChildStdinWrite _ _ | ChildStdinEnd _ => true | _ => false end.

Definition LF : string := String "010"%char EmptyString.

(** A string is one line when a line feed occurs in it nowhere but,
    possibly, as its last character. *)
Fixpoint one_line (s : string) : bool :=
  match s with
  | EmptyString => true
  | String c s' =>
      if decide (c = "010"%char)
      then match s' with EmptyString => true | _ => false end
      else one_line s'
  end.

(** What the arrival of [text] on a flowing stdin adds to the trace: each
    listener, in the order of registration, pauses the stream and
    acknowledges its request with [text]. *)
Definition deliveries (text : string) (listeners : list nat) : list Effect :=
  listeners ≫= λ cb, [StdinPause; Ack cb (AckLine text)].

(** How [exec] reports to its callback a child that ran to a normal exit
    with status [c]: no error for status 0, otherwise an error whose
    [code] is the status. *)
Definition exit_report (c : Z) : option ExecException :=
  if decide (c = 0%Z) then None else Some (mkExecException (Some c) false None).

(** How [exec] reports a child that it ended with its kill signal when
    the [timeout] ran out: an error without an exit status. *)
Definition timeout_report : option ExecException :=
  Some (mkExecException None true (Some "SIGTERM")).

(** An action respects a relation between worlds when the world it
    leaves is related to the one it found. *)
Definition respects (R : World → World → Prop) {A} (m : M A) : Prop :=
  ∀ w, R w (m w).2.

(** The capture of input is left in place: the process goes on, a
    flowing stdin stays flowing, and no listener is removed. *)
Definition keeps_listening (w w' : World) : Prop :=
  exited w' = exited w ∧ (stdin_flowing w = true → stdin_flowing w' = true) ∧
  stdin_once w ⊆ stdin_once w'.

(** The trace only grows, the process information stays, and [P] holds
    of every effect added. *)
Definition grows (P : EnvInfo → Effect → Prop) (w w' : World) : Prop :=
  proc w' = proc w ∧ ∃ new, trace w' = trace w ++ new ∧ Forall (P (proc w)) new.

(** Properties of the effects added: not a log line unless the toggle is
    set; anything; never a log line; never a write to or the end of the
    stdin of a child. *)
Definition not_a_log (p : EnvInfo) (e : Effect) : Prop :=
  truthy_string (env p !! "CODAPT_DEBUG") = false → is_log e = false.

Definition any_effect (p : EnvInfo) (e : Effect) : Prop := True.

Definition never_a_log (p : EnvInfo) (e : Effect) : Prop := is_log e = false.

Definition never_child_stdin (p : EnvInfo) (e : Effect) : Prop := is_child_stdin e = false.

(** The timers whose callback is the redraw of the spinner. *)
Definition is_spinner (e : TimerEntry) : bool :=
  match callback e with Spinner _ _ => true | Deadline => false end.

(** The timers of the loading indicator are in order: handles are below
    the next fresh one, the repeating timers are the spinner intervals, and
    a spinner interval is armed exactly under the handle remembered in
    [loadingInterval] (so at most one, and none when it is [null]). *)
Definition timers_ok (w : World) : Prop :=
  (∀ h e, timers w !! h = Some e → h < next_timer w ∧ repeat e = is_spinner e) ∧
  (∀ h, (∃ e, timers w !! h = Some e ∧ is_spinner e = true) ↔ loadingInterval w = Some h).

Definition keeps_timers_ok (w w' : World) : Prop := timers_ok w → timers_ok w'.

(** The action logs the line [message] when the debug toggle is set. *)
Definition logs_line (message : string) (w w' : World) : Prop :=
  proc w' = proc w ∧
  ∃ new, trace w' = trace w ++ new ∧
         (debug_enabled w = true → ConsoleLog (tag +:+ message) ∈ new).

(** The process goes on as it is and the promise of child [c], once
    made, is left as it is. *)
Definition undisturbed (c : nat) (w w' : World) : Prop :=
  exited w' = exited w ∧ proc w' = proc w ∧
  (c < next_child w → c < next_child w' ∧ children w' !! c = children w !! c).

(** What [runCommand] does with the stdin of the child [c]. *)
Definition stdin_ops (c : nat) (input : option string) : list Effect :=
  match input with
  | Some s => [ChildStdinWrite c s; ChildStdinEnd c]
  | None => []
  end.

(** The execution requests, among the events. *)
Definition is_request (ev : Part000.Event) : bool :=
  match ev with
  | Part000.Socket (Part000.OnRunCommand _ _ _) => true
  | _ => false
  end.

(** The response that the callback of [exec] resolves with. *)
Definition response_of (error : option ExecException) (out err : string) : CommandResponse :=
  match error with
  | Some e => mkResponse (code_or_minus_one (code e)) out err
  | None => mkResponse 0 out err
  end.

(** Events of the [part_000] variant that neither end the process nor
    deliver input. *)
Definition quiet (ev : Part000.Event) : bool :=
  match ev with
  | Part000.StdinData _ => false
  | Part000.Socket Part000.OnTerminate => false
  | Part000.Socket Part000.OnDisconnect => false
  | _ => true
  end.

(** The same for the [main.ts] variant, where [disconnect] does not end
    the process. *)
Definition quiet_main (ev : MainTs.Event) : bool :=
  match ev with
  | MainTs.StdinData _ => false
  | MainTs.Socket MainTs.OnTerminate => false
  | _ => true
  end.

(** Events that do not concern child [c] and do not end the process. *)
Definition elsewhere (c : nat) (ev : Part000.Event) : bool :=
  match ev with
  | Part000.ExecCallback c' _ _ _ => bool_decide (c' ≠ c)
  | Part000.ChildError c' _ => bool_decide (c' ≠ c)
  | Part000.Socket Part000.OnTerminate => false
  | Part000.Socket Part000.OnDisconnect => false
  | _ => true
  end.

(** The line that the handler of a socket event logs as it starts, when
    it logs one. *)
Definition announcement (e : Part000.ServerEvent) : option string :=
  match e with
  | Part000.OnConnect => Some "Connected to server"
  | Part000.OnGetEnvInfo _ => Some "Received getEnvInfo request"
  | Part000.OnRunCommand payload _ _ => Some ("Received command: " +:+ Part000.command payload)
  | Part000.OnPrint _ _ => None
  | Part000.OnReadStdin _ => None
  | Part000.OnStartLoading text t _ =>
      Some ("Starting loading: " +:+ text +:+ " with timeoutMs=" +:+ template_number t)
  | Part000.OnStopLoading _ => Some "Stopping loading"
  | Part000.OnTerminate => Some "Terminating"
  | Part000.OnDisconnect => Some "Disconnected from server, terminating..."
  end.

Definition announcement_main (e : MainTs.ServerEvent) : option string :=
  match e with
  | MainTs.OnConnect => Some "Connected to server, sending start event"
  | MainTs.OnGetEnvInfo _ => Some "Received getEnvInfo request"
  | MainTs.OnRunCommand payload _ => Some ("Received command: " +:+ MainTs.command payload)
  | MainTs.OnEmitToStdout _ _ => None
  | MainTs.OnReadLine _ => None
  | MainTs.OnStartLoading text t _ =>
      Some ("Starting loading: " +:+ text +:+ " with timeout " +:+ template_number t +:+ "ms")
  | MainTs.OnStopLoading _ => Some "Stopping loading"
  | MainTs.OnTerminate => Some "Terminating"
  | MainTs.OnDisconnect => Some "Disconnected from server."
  end.

(** Sample worlds for the examples: a process with and without the debug
    toggle. *)
Definition plain_process : EnvInfo :=
  mkEnvInfo ["node"; "codapt"] ∅ "/home/user" 4242.

Definition debug_process : EnvInfo :=
  mkEnvInfo ["node"; "codapt"] (<["CODAPT_DEBUG" := "1"]> ∅) "/home/user" 4242.

(** The acknowledgments among the effects, in order. *)
Definition acks (l : list Effect) : list (nat * AckValue) :=
  l ≫= λ e, match e with Ack cb v => [(cb, v)] | _ => [] end.

(** What the ticks number [m], [m+1], ..., [m+n-1] of a loading session
    with [text] write: each clears the line and draws the glyph of its
    number, modulo the number of glyphs, before the text. *)
Definition frames (text : string) (m n : nat) : list Effect :=
  seq m n ≫= λ k, [StdoutWrite clear_sequence;
                    StdoutWrite (spinner_line (k mod length spinnerChars) text)].

(** The events of child [c]. *)
Definition about (c : nat) (ev : Part000.Event) : bool :=
  match ev with
  | Part000.ExecCallback c' _ _ _ => bool_decide (c' = c)
  | Part000.ChildError c' _ => bool_decide (c' = c)
  | _ => false
  end.

Definition about_main (c : nat) (ev : MainTs.Event) : bool :=
  match ev with
  | MainTs.ExecCallback c' _ _ _ => bool_decide (c' = c)
  | MainTs.ChildError c' _ => bool_decide (c' = c)
  | _ => false
  end.

(** Events of [main.ts] that do not concern child [c] and do not end the
    process. *)
Definition elsewhere_main (c : nat) (ev : MainTs.Event) : bool :=
  match ev with
  | MainTs.ExecCallback c' _ _ _ => bool_decide (c' ≠ c)
  | MainTs.ChildError c' _ => bool_decide (c' ≠ c)
  | MainTs.Socket MainTs.OnTerminate => false
  | _ => true
  end.



(** The process is as alive, or as ended, as it was. *)
Definition same_exit (w w' : World) : Prop := exited w' = exited w.

(** The endpoint that the program connects to: [CODAPT_SERVER] when it is
    set to a non-empty string, the hosted default otherwise. *)
Definition endpoint (p : EnvInfo) : string :=
  match env p !! "CODAPT_SERVER" with
  | Some s => if decide (s = "") then Part000.DEFAULT_SERVER else s
  | None => Part000.DEFAULT_SERVER
  end.

(** A process started with an endpoint of its own. *)
Definition staging_process : EnvInfo :=
  mkEnvInfo ["node"; "codapt"] (<["CODAPT_SERVER" := "http://localhost:3000/"]> ∅)
    "/home/user" 4242.

(** What an event of a child settles the promise of its request with. *)
Definition outcome (ev : Part000.Event) : option AckValue :=
  match ev with
  | Part000.ExecCallback _ error out err => Some (AckResponse (response_of error out err))
  | Part000.ChildError _ message => Some (AckResponse (mkResponse (-1) "" message))
  | _ => None
  end.

Definition outcome_main (ev : MainTs.Event) : option AckValue :=
  match ev with
  | MainTs.ExecCallback _ error out err => Some (AckResponse (response_of error out err))
  | MainTs.ChildError _ message => Some (AckResponse (mkResponse (-1) "" message))
  | _ => None
  end.

Definition is_ack (e : Effect) : bool :=
  match e with Ack _ _ => true | _ => false end.

Definition never_an_ack (p : EnvInfo) (e : Effect) : Prop := is_ack e = false.

(** The events that are acknowledged in their own step, with the
    acknowledgment and its value: the environment request with the process
    information, the direct output, the start and the stop of loading with
    nothing. *)
Definition immediate_ack (p : EnvInfo) (e : Part000.ServerEvent) : list (nat * AckValue) :=
  match e with
  | Part000.OnGetEnvInfo cb => [(cb, AckEnvInfo p)]
  | Part000.OnPrint _ cb => [(cb, AckVoid)]
  | Part000.OnStartLoading _ _ cb => [(cb, AckVoid)]
  | Part000.OnStopLoading cb => [(cb, AckVoid)]
  | _ => []
  end.

Definition immediate_ack_main (p : EnvInfo) (e : MainTs.ServerEvent) : list (nat * AckValue) :=
  match e with
  | MainTs.OnGetEnvInfo cb => [(cb, AckEnvInfo p)]
  | MainTs.OnEmitToStdout _ cb => [(cb, AckVoid)]
  | MainTs.OnStartLoading _ _ cb => [(cb, AckVoid)]
  | MainTs.OnStopLoading cb => [(cb, AckVoid)]
  | _ => []
  end.

End Vocabulary.

Import Runtime Helpers Vocabulary.

(** Unfolds the handlers down to the primitive state updates. *)
Ltac js_unfold :=
  unfold Part000.step, Part000.dispatch, Part000.handle,
    Part000.on_connect, Part000.on_getEnvInfo, Part000.on_runCommand,
    Part000.on_print, Part000.on_readStdin, Part000.on_startLoading,
    Part000.on_stopLoading, Part000.on_terminate, Part000.on_disconnect,
    Part000.runCommand, Part000.startLoading, Part000.fire, Part000.run_closure,
    Part000.spinner_tick, Part000.writeLastLoadingLine,
    MainTs.step, MainTs.dispatch, MainTs.handle,
    MainTs.on_connect, MainTs.on_getEnvInfo, MainTs.on_runCommand,
    MainTs.on_emitToStdout, MainTs.on_readLine, MainTs.on_startLoading,
    MainTs.on_stopLoading, MainTs.on_terminate, MainTs.on_disconnect,
    MainTs.runCommand, MainTs.startLoading, MainTs.fire, MainTs.run_closure,
    MainTs.spinner_tick,
    stdin_data, on_stdin_data,
    exec_callback, on_child_error, resolve, reject, settle, run_reaction,
    then_callback, catch_callback, chain, listen_error, exec,
    stopLoading, clearLine, debugLog, setTimeout, setInterval, arm,
    stdin_resume, stdin_setEncoding, stdin_pause, stdin_once_data, process_exit,
    clearInterval, acknowledge, stdout_write, console_log, emit,
    exec_M, when, gets, modify, mbind, M_bind, mret, M_ret in *.

Ltac open_world w := destruct w; simpl in *; subst.

(** Computes the record updates, and nothing else. *)
Ltac setters :=
  cbv beta iota zeta delta
    [set_loadingInterval set_lastLoadingLineWritten set_timers set_next_timer
     set_stdin_flowing set_stdin_once set_children set_next_child set_trace
     set_exited proc loadingInterval lastLoadingLineWritten timers next_timer
     stdin_flowing stdin_once children next_child trace exited fst snd].

(** ** Direct output *)

(** [debugLog] adds its tagged line when the toggle is set, and nothing
    otherwise. *)
Lemma debugLog_logged message w :
  exec_M (debugLog message) w = set_trace (trace w ++ logged w message) w.
Proof.
  open_world w. unfold logged, debug_enabled. js_unfold. simpl.
  destruct (truthy_string _); simpl; unfold set_trace; simpl.
  - reflexivity.
  - by rewrite app_nil_r.
Qed.

(** C2, as amended.  A direct-output request received while loading: the
    [print] handler of [part_000] clears the line, writes the text, writes
    the last status line again and acknowledges, and changes nothing else
    in the world (the interval stays armed with its text and counter);
    the [emitToStdout] handler of [main.ts] stops the loading (interval
    disarmed, line cleared), writes the text and acknowledges. *)
Theorem direct_output_while_loading (w : World) (text : string) (cb h : nat) :
  exited w = None → loadingInterval w = Some h →
  Part000.step w (Part000.Socket (Part000.OnPrint text cb)) =
    set_trace (trace w ++ [StdoutWrite clear_sequence; StdoutWrite text;
                           StdoutWrite (lastLoadingLineWritten w); Ack cb AckVoid]) w
  ∧ MainTs.step w (MainTs.Socket (MainTs.OnEmitToStdout text cb)) =
    set_trace (trace w ++ [StdoutWrite clear_sequence; StdoutWrite text; Ack cb AckVoid])
      (set_loadingInterval None (set_timers (delete h (timers w)) w)).
Proof.
  destruct w; simpl; intros -> ->. js_unfold. simpl.
  unfold set_trace, set_loadingInterval, set_timers, clear_sequence. simpl.
  rewrite <- !app_assoc. simpl. done.
Qed.

(** The loading session that [startLoading "Working" null] starts in a
    fresh process, after one tick of its spinner. *)
Lemma direct_output_while_loading_witness :
  let w := Part000.run (boot plain_process)
             [Part000.Socket (Part000.OnStartLoading "Working" None 1);
              Part000.TimerFire 0] in
  exited w = None ∧ loadingInterval w = Some 0
  ∧ loadingInterval (Part000.step w (Part000.Socket (Part000.OnPrint "done" 2))) = Some 0
  ∧ drop 3 (trace (Part000.step w (Part000.Socket (Part000.OnPrint "done" 2)))) =
      [StdoutWrite clear_sequence; StdoutWrite "done"; StdoutWrite "| Working"; Ack 2 AckVoid].
Proof.
  intros w.
  destruct (direct_output_while_loading w "done" 2 0 eq_refl eq_refl) as [-> _].
  repeat split; reflexivity.
Defined.

(** In [main.ts] a direct-output request ends the loading session: the
    interval armed by [startLoading] is gone after [emitToStdout]. *)
Lemma emitToStdout_ends_loading :
  let w := MainTs.run (MainTs.start plain_process)
             [MainTs.Socket (MainTs.OnStartLoading "Working" None 1)] in
  loadingInterval w = Some 0
  ∧ timers w !! 0 = Some (mkTimer (Spinner "Working" 0) 100 true)
  ∧ loadingInterval (MainTs.step w (MainTs.Socket (MainTs.OnEmitToStdout "done" 2))) = None
  ∧ timers (MainTs.step w (MainTs.Socket (MainTs.OnEmitToStdout "done" 2))) !! 0 = None.
Proof. vm_compute. done. Qed.

(** ** Termination and disconnection *)

Lemma run_exited_part000 (w : World) (evs : list Part000.Event) :
  exited w ≠ None → Part000.run w evs = w.
Proof.
  intros Hx. induction evs as [|ev evs IH]; [done|].
  unfold Part000.run in *. simpl. unfold Part000.step at 2.
  destruct (exited w) eqn:E; [exact IH | done].
Qed.

Lemma run_exited_main (w : World) (evs : list MainTs.Event) :
  exited w ≠ None → MainTs.run w evs = w.
Proof.
  intros Hx. induction evs as [|ev evs IH]; [done|].
  unfold MainTs.run in *. simpl. unfold MainTs.step at 2.
  destruct (exited w) eqn:E; [exact IH | done].
Qed.

(** C6, as amended.  A termination request ends the process with status
    0 in both variants: the handler logs (under the debug toggle) and calls
    [process.exit(0)], and no later event changes the world.  A
    disconnection does the same in [part_000]; in [main.ts] the
    [disconnect] handler only logs and the process goes on. *)
Theorem terminate_and_disconnect (w : World) :
  exited w = None →
  (Part000.step w (Part000.Socket Part000.OnTerminate) =
     set_exited (Some 0%Z)
       (set_trace (trace w ++ logged w "Terminating" ++ [ProcessExit 0]) w)
   ∧ ∀ evs, Part000.run (Part000.step w (Part000.Socket Part000.OnTerminate)) evs =
            Part000.step w (Part000.Socket Part000.OnTerminate))
  ∧ (Part000.step w (Part000.Socket Part000.OnDisconnect) =
       set_exited (Some 0%Z)
         (set_trace (trace w ++ logged w "Disconnected from server, terminating..."
                             ++ [ProcessExit 0]) w)
     ∧ ∀ evs, Part000.run (Part000.step w (Part000.Socket Part000.OnDisconnect)) evs =
              Part000.step w (Part000.Socket Part000.OnDisconnect))
  ∧ (MainTs.step w (MainTs.Socket MainTs.OnTerminate) =
       set_exited (Some 0%Z)
         (set_trace (trace w ++ logged w "Terminating" ++ [ProcessExit 0]) w)
     ∧ ∀ evs, MainTs.run (MainTs.step w (MainTs.Socket MainTs.OnTerminate)) evs =
              MainTs.step w (MainTs.Socket MainTs.OnTerminate))
  ∧ MainTs.step w (MainTs.Socket MainTs.OnDisconnect) =
      set_trace (trace w ++ logged w "Disconnected from server.") w.
Proof.
  intros Hx.
  assert (Ht : Part000.step w (Part000.Socket Part000.OnTerminate) =
     set_exited (Some 0%Z)
       (set_trace (trace w ++ logged w "Terminating" ++ [ProcessExit 0]) w)).
  { open_world w. unfold logged, debug_enabled. js_unfold. simpl.
    destruct (truthy_string _); simpl; unfold set_trace, set_exited; simpl;
      by rewrite <- ?app_assoc. }
  assert (Hd : Part000.step w (Part000.Socket Part000.OnDisconnect) =
     set_exited (Some 0%Z)
       (set_trace (trace w ++ logged w "Disconnected from server, terminating..."
                           ++ [ProcessExit 0]) w)).
  { open_world w. unfold logged, debug_enabled. js_unfold. simpl.
    destruct (truthy_string _); simpl; unfold set_trace, set_exited; simpl;
      by rewrite <- ?app_assoc. }
  assert (Hm : MainTs.step w (MainTs.Socket MainTs.OnTerminate) =
     set_exited (Some 0%Z)
       (set_trace (trace w ++ logged w "Terminating" ++ [ProcessExit 0]) w)).
  { open_world w. unfold logged, debug_enabled. js_unfold. simpl.
    destruct (truthy_string _); simpl; unfold set_trace, set_exited; simpl;
      by rewrite <- ?app_assoc. }
  split_and!; try done.
  - intros evs. apply run_exited_part000. by rewrite Ht.
  - intros evs. apply run_exited_part000. by rewrite Hd.
  - intros evs. apply run_exited_main. by rewrite Hm.
  - unfold MainTs.step. rewrite Hx. apply debugLog_logged.
Qed.

(** The fresh process of [part_000] with the debug toggle set. *)
Lemma terminate_and_disconnect_witness :
  let w := Part000.start debug_process in
  exited w = None
  ∧ exited (Part000.step w (Part000.Socket Part000.OnDisconnect)) = Some 0%Z
  ∧ Part000.run (Part000.step w (Part000.Socket Part000.OnDisconnect))
      [Part000.Socket (Part000.OnPrint "late" 1)] =
    Part000.step w (Part000.Socket Part000.OnDisconnect).
Proof.
  intros w.
  destruct (terminate_and_disconnect w eq_refl) as (_ & [Hd Hrun] & _).
  split; [reflexivity|]. split; [by rewrite Hd | apply Hrun].
Defined.

(** In [main.ts] the process survives a disconnection and still serves
    the events that follow it. *)
Lemma main_ts_survives_disconnect :
  let w := MainTs.run (MainTs.start plain_process)
             [MainTs.Socket MainTs.OnDisconnect;
              MainTs.Socket (MainTs.OnEmitToStdout "late" 1)] in
  exited w = None
  ∧ trace w = [Connect "https://client-socket.codapt.ai/" None;
               StdoutWrite "late"; Ack 1 AckVoid].
Proof. vm_compute. done. Qed.

(** ** Actions that respect a relation between worlds *)

Section Respects.
Context (R : World → World → Prop) `{!Reflexive R, !Transitive R}.

Lemma respects_ret {A} (a : A) : respects R (mret a).
Proof. intros w. simpl. reflexivity. Qed.

Lemma respects_gets {A} (f : World → A) : respects R (gets f).
Proof. intros w. simpl. reflexivity. Qed.

Lemma respects_bind {A B} (m : M A) (k : A → M B) :
  respects R m → (∀ a, respects R (k a)) → respects R (m ≫= k).
Proof.
  intros Hm Hk w. unfold mbind, M_bind.
  etrans; [apply Hm | apply Hk].
Qed.

Lemma respects_when (b : bool) (m : M unit) :
  respects R m → respects R (when b m).
Proof. destruct b; [done | intros _; apply respects_ret]. Qed.

Lemma respects_modify (f : World → World) :
  (∀ w, R w (f w)) → respects R (modify f).
Proof. intros Hf w. apply Hf. Qed.

Lemma respects_for_each {A} (f : A → M unit) (l : list A) :
  (∀ a, respects R (f a)) → respects R (for_each f l).
Proof.
  intros Hf. induction l as [|a l IH]; simpl.
  - apply respects_ret.
  - apply respects_bind; [apply Hf | intros _; apply IH].
Qed.

Lemma respects_exec_M {A} (m : M A) (w : World) :
  respects R m → R w (exec_M m w).
Proof. intros Hm. apply Hm. Qed.
End Respects.

Global Instance keeps_listening_refl : Reflexive keeps_listening.
Proof. intros w. by split_and!. Qed.

Global Instance keeps_listening_trans : Transitive keeps_listening.
Proof.
  intros w1 w2 w3 (Hx & Hf & Ho) (Hx' & Hf' & Ho'). split_and!.
  - congruence.
  - auto.
  - by etrans.
Qed.

Global Instance grows_refl P : Reflexive (grows P).
Proof. intros w. split; [done|]. exists []. by rewrite app_nil_r. Qed.

Global Instance grows_trans P : Transitive (grows P).
Proof.
  intros w1 w2 w3 (Hp & new & Ht & HP) (Hp' & new' & Ht' & HP').
  split; [congruence|]. exists (new ++ new'). split.
  - by rewrite Ht', Ht, app_assoc.
  - apply Forall_app. split; [done|]. by rewrite <- Hp.
Qed.

Global Instance undisturbed_refl c : Reflexive (undisturbed c).
Proof. intros w. by split_and!. Qed.

Global Instance undisturbed_trans c : Transitive (undisturbed c).
Proof.
  intros w1 w2 w3 (Hx & Hp & H12) (Hx' & Hp' & H23).
  split_and!; [congruence | congruence |]. intros Hc.
  destruct (H12 Hc) as [Hc2 E2]. destruct (H23 Hc2) as [Hc3 E3].
  split; [done | congruence].
Qed.

Global Instance keeps_timers_ok_refl : Reflexive keeps_timers_ok.
Proof. intros w H. exact H. Qed.

Global Instance keeps_timers_ok_trans : Transitive keeps_timers_ok.
Proof. intros w1 w2 w3 H12 H23 H. apply H23, H12, H. Qed.

(** The definitions built from [gets], [modify] and sequencing. *)
Ltac js_layers :=
  unfold Part000.dispatch, Part000.handle,
    Part000.on_connect, Part000.on_getEnvInfo, Part000.on_runCommand,
    Part000.on_print, Part000.on_readStdin, Part000.on_startLoading,
    Part000.on_stopLoading, Part000.on_terminate, Part000.on_disconnect,
    Part000.runCommand, Part000.startLoading, Part000.fire, Part000.run_closure,
    Part000.spinner_tick, Part000.writeLastLoadingLine,
    MainTs.dispatch, MainTs.handle,
    MainTs.on_connect, MainTs.on_getEnvInfo, MainTs.on_runCommand,
    MainTs.on_emitToStdout, MainTs.on_readLine, MainTs.on_startLoading,
    MainTs.on_stopLoading, MainTs.on_terminate, MainTs.on_disconnect,
    MainTs.runCommand, MainTs.startLoading, MainTs.fire, MainTs.run_closure,
    MainTs.spinner_tick,
    stdin_data, on_stdin_data,
    exec_callback, on_child_error, resolve, reject, settle, run_reaction,
    then_callback, catch_callback, chain, listen_error, exec,
    stopLoading, clearLine, setTimeout, setInterval, arm,
    stdin_resume, stdin_setEncoding, stdin_pause, stdin_once_data, process_exit,
    clearInterval, acknowledge, stdout_write, console_log, emit.

(** The same without the functions of the loading indicator. *)
Ltac js_handlers :=
  unfold Part000.dispatch, Part000.handle,
    Part000.on_connect, Part000.on_getEnvInfo, Part000.on_runCommand,
    Part000.on_print, Part000.on_readStdin, Part000.on_startLoading,
    Part000.on_stopLoading, Part000.on_terminate, Part000.on_disconnect,
    Part000.runCommand, Part000.writeLastLoadingLine,
    MainTs.dispatch, MainTs.handle,
    MainTs.on_connect, MainTs.on_getEnvInfo, MainTs.on_runCommand,
    MainTs.on_emitToStdout, MainTs.on_readLine, MainTs.on_startLoading,
    MainTs.on_stopLoading, MainTs.on_terminate, MainTs.on_disconnect,
    MainTs.runCommand,
    stdin_data, on_stdin_data,
    exec_callback, on_child_error, resolve, reject, settle, run_reaction,
    then_callback, catch_callback, chain, listen_error, exec,
    clearLine, stdin_resume, stdin_setEncoding, stdin_pause, stdin_once_data,
    process_exit, acknowledge, stdout_write, console_log, emit.

(** Walks down an action; [leaf] proves the relation for a [modify],
    [known] the actions that have a lemma of their own, and [layers]
    unfolds the others. *)
Ltac respects_walk_with layers known leaf :=
  repeat first
    [ known
    | match goal with
      | |- respects _ (mret _) => apply respects_ret; apply _
      | |- respects _ (gets _) => apply respects_gets; apply _
      | |- respects _ (mbind _ _) => apply respects_bind; [apply _ | | intros ?]
      | |- respects _ (when _ _) => apply respects_when; [apply _ |]
      | |- respects _ (for_each _ _) =>
          apply respects_for_each; [apply _ | apply _ | intros ?]
      | |- respects _ (modify _) =>
          apply respects_modify; let w := fresh "w" in intros w; destruct w; leaf
      | |- respects _ (match ?x with _ => _ end) => destruct x
      end
    | progress layers ].

Ltac respects_walk known leaf := respects_walk_with ltac:(js_layers) known leaf.

(** Uses the lemma [lem] where the action is a [debugLog]. *)
Ltac on_debugLog lem :=
  idtac; match goal with |- respects _ (debugLog _) => apply lem end.

(** ** The capture of a line of input *)

Lemma debugLog_keeps_listening message : respects keeps_listening (debugLog message).
Proof.
  unfold debugLog. js_layers.
  respects_walk ltac:(fail) ltac:(by split_and!).
Qed.

Ltac listening_leaf :=
  unfold keeps_listening; simpl; split_and!; [done | done | set_solver].

Lemma handle_keeps_listening (ev : Part000.Event) :
  quiet ev = true → respects keeps_listening (Part000.dispatch ev).
Proof.
  intros Hq. destruct ev as [e | h | chunk | c error out err | c message];
    try discriminate Hq.
  - destruct e; try discriminate Hq; js_layers;
      respects_walk ltac:(on_debugLog debugLog_keeps_listening) listening_leaf.
  - js_layers. respects_walk ltac:(on_debugLog debugLog_keeps_listening) listening_leaf.
  - js_layers. respects_walk ltac:(on_debugLog debugLog_keeps_listening) listening_leaf.
  - js_layers. respects_walk ltac:(on_debugLog debugLog_keeps_listening) listening_leaf.
Qed.

Lemma handle_keeps_listening_main (ev : MainTs.Event) :
  quiet_main ev = true → respects keeps_listening (MainTs.dispatch ev).
Proof.
  intros Hq. destruct ev as [e | h | chunk | c error out err | c message];
    try discriminate Hq.
  - destruct e; try discriminate Hq; js_layers;
      respects_walk ltac:(on_debugLog debugLog_keeps_listening) listening_leaf.
  - js_layers. respects_walk ltac:(on_debugLog debugLog_keeps_listening) listening_leaf.
  - js_layers. respects_walk ltac:(on_debugLog debugLog_keeps_listening) listening_leaf.
  - js_layers. respects_walk ltac:(on_debugLog debugLog_keeps_listening) listening_leaf.
Qed.

Lemma run_keeps_listening (w : World) (evs : list Part000.Event) :
  Forall (λ ev, quiet ev = true) evs → keeps_listening w (Part000.run w evs).
Proof.
  intros Hq. revert w. induction Hq as [|ev evs Hev _ IH]; intros w.
  - reflexivity.
  - unfold Part000.run. simpl. etrans; [|apply IH].
    unfold Part000.step. destruct (exited w); [reflexivity|].
    apply respects_exec_M, handle_keeps_listening, Hev.
Qed.

Lemma run_keeps_listening_main (w : World) (evs : list MainTs.Event) :
  Forall (λ ev, quiet_main ev = true) evs → keeps_listening w (MainTs.run w evs).
Proof.
  intros Hq. revert w. induction Hq as [|ev evs Hev _ IH]; intros w.
  - reflexivity.
  - unfold MainTs.run. simpl. etrans; [|apply IH].
    unfold MainTs.step. destruct (exited w); [reflexivity|].
    apply respects_exec_M, handle_keeps_listening_main, Hev.
Qed.

(** The listeners of one ['data'] event, run one after the other. *)
Lemma for_each_on_stdin_data (text : string) (ls : list nat) (w : World) :
  ls ≠ [] →
  exec_M (for_each (λ cb, on_stdin_data cb text) ls) w =
    set_stdin_flowing false (set_trace (trace w ++ deliveries text ls) w).
Proof.
  revert w. induction ls as [|cb ls IH]; intros w Hne; [done|].
  destruct ls as [|cb' ls].
  - open_world w. js_unfold. simpl. unfold set_trace, set_stdin_flowing. simpl.
    by rewrite <- app_assoc.
  - change (exec_M (for_each (λ cb0, on_stdin_data cb0 text) (cb :: cb' :: ls)) w)
      with (exec_M (for_each (λ cb0, on_stdin_data cb0 text) (cb' :: ls))
              (exec_M (on_stdin_data cb text) w)).
    rewrite IH by done. open_world w. js_unfold. simpl.
    unfold set_trace, set_stdin_flowing, deliveries. simpl.
    by rewrite <- !app_assoc.
Qed.

(** A chunk that arrives while some request listens is handed, whole, to
    every listener, and the listeners are gone afterwards. *)
Lemma stdin_data_delivers (text : string) (w : World) :
  stdin_flowing w = true → stdin_once w ≠ [] →
  exec_M (stdin_data text) w =
    set_stdin_flowing false
      (set_stdin_once [] (set_trace (trace w ++ deliveries text (stdin_once w)) w)).
Proof.
  intros Hf Hne.
  transitivity (exec_M (for_each (λ cb, on_stdin_data cb text) (stdin_once w))
                  (set_stdin_once [] w)).
  - open_world w. unfold stdin_data. unfold exec_M, when, gets, modify, mbind, M_bind.
    simpl. done.
  - rewrite for_each_on_stdin_data by done. by open_world w.
Qed.

Lemma elem_of_deliveries (text : string) (cb : nat) (ls : list nat) :
  cb ∈ ls → Ack cb (AckLine text) ∈ deliveries text ls.
Proof.
  intros Hin. unfold deliveries. apply list_elem_of_bind.
  exists cb. split; [set_solver | done].
Qed.

Lemma readStdin_listens (w : World) (cb : nat) :
  exited w = None →
  let w1 := Part000.step w (Part000.Socket (Part000.OnReadStdin cb)) in
  exited w1 = None ∧ stdin_flowing w1 = true ∧ cb ∈ stdin_once w1.
Proof.
  intros Hx. open_world w. js_unfold. simpl.
  destruct loadingInterval0; simpl; split_and!; try done; set_solver.
Qed.

Lemma readLine_listens (w : World) (cb : nat) :
  exited w = None →
  let w1 := MainTs.step w (MainTs.Socket (MainTs.OnReadLine cb)) in
  exited w1 = None ∧ stdin_flowing w1 = true ∧ cb ∈ stdin_once w1.
Proof.
  intros Hx. open_world w. js_unfold. simpl.
  destruct loadingInterval0; simpl; split_and!; try done; set_solver.
Qed.

(** C10.  An input-line request ([readStdin] in [part_000], [readLine] in
    [main.ts]) is acknowledged with the first chunk that arrives on
    standard input after it, whatever the chunk holds and whatever events
    that neither deliver input nor end the process come in between: the
    step of the arrival adds to the trace one [pause] and one
    acknowledgment with the whole [chunk] per listening request, the
    request [cb] among them, and removes the listeners. *)
Theorem input_request_resolves_with_first_chunk
    (w : World) (cb : nat) (chunk : string)
    (evs : list Part000.Event) (evs' : list MainTs.Event) :
  exited w = None →
  Forall (λ ev, quiet ev = true) evs →
  Forall (λ ev, quiet_main ev = true) evs' →
  (let w1 := Part000.run (Part000.step w (Part000.Socket (Part000.OnReadStdin cb))) evs in
   Part000.step w1 (Part000.StdinData chunk) =
     set_stdin_flowing false
       (set_stdin_once [] (set_trace (trace w1 ++ deliveries chunk (stdin_once w1)) w1))
   ∧ Ack cb (AckLine chunk) ∈ deliveries chunk (stdin_once w1))
  ∧ (let w1 := MainTs.run (MainTs.step w (MainTs.Socket (MainTs.OnReadLine cb))) evs' in
     MainTs.step w1 (MainTs.StdinData chunk) =
       set_stdin_flowing false
         (set_stdin_once [] (set_trace (trace w1 ++ deliveries chunk (stdin_once w1)) w1))
     ∧ Ack cb (AckLine chunk) ∈ deliveries chunk (stdin_once w1)).
Proof.
  intros Hx Hq Hq'. split.
  - destruct (readStdin_listens w cb Hx) as (Hx1 & Hf1 & Hin1).
    destruct (run_keeps_listening
                (Part000.step w (Part000.Socket (Part000.OnReadStdin cb))) evs Hq)
      as (Hx2 & Hf2 & Hin2).
    simpl. set (w1 := Part000.run _ evs) in *.
    assert (cb ∈ stdin_once w1) as Hin by (apply Hin2, Hin1).
    split; [|by apply elem_of_deliveries].
    unfold Part000.step. rewrite Hx2, Hx1. simpl.
    apply stdin_data_delivers; [by apply Hf2 | intros E; rewrite E in Hin; set_solver].
  - destruct (readLine_listens w cb Hx) as (Hx1 & Hf1 & Hin1).
    destruct (run_keeps_listening_main
                (MainTs.step w (MainTs.Socket (MainTs.OnReadLine cb))) evs' Hq')
      as (Hx2 & Hf2 & Hin2).
    simpl. set (w1 := MainTs.run _ evs') in *.
    assert (cb ∈ stdin_once w1) as Hin by (apply Hin2, Hin1).
    split; [|by apply elem_of_deliveries].
    unfold MainTs.step. rewrite Hx2, Hx1. simpl.
    apply stdin_data_delivers; [by apply Hf2 | intros E; rewrite E in Hin; set_solver].
Qed.

(** A request made while the connection spinner runs, a tick and a direct
    output in between, then the chunk. *)
Lemma input_request_resolves_with_first_chunk_witness :
  let w := Part000.start plain_process in
  let chunk := "yes" +:+ LF +:+ "and more" in
  let evs := [Part000.TimerFire 1; Part000.Socket (Part000.OnPrint "name? " 3)] in
  let w1 := Part000.run (Part000.step w (Part000.Socket (Part000.OnReadStdin 7))) evs in
  exited w = None
  ∧ Forall (λ ev, quiet ev = true) evs
  ∧ last (trace (Part000.step w1 (Part000.StdinData chunk))) = Some (Ack 7 (AckLine chunk)).
Proof.
  intros w chunk evs w1.
  assert (Hq : Forall (λ ev, quiet ev = true) evs) by (repeat constructor).
  destruct (input_request_resolves_with_first_chunk w 7 chunk evs [] eq_refl Hq
              (Forall_nil_2 _)) as [[Hstep _] _].
  split; [reflexivity|]. split; [exact Hq|].
  fold w1 in Hstep. rewrite Hstep. vm_compute. reflexivity.
Defined.

(** Both variants stop the loading before they listen for input. *)
Lemma input_request_stops_loading (w : World) (cb h : nat) :
  exited w = None → loadingInterval w = Some h →
  let w1 :=
    set_stdin_once (stdin_once w ++ [cb]) (set_stdin_flowing true
      (set_trace (trace w ++ [StdoutWrite clear_sequence; StdinResume;
                              StdinSetEncoding "utf8"])
         (set_loadingInterval None (set_timers (delete h (timers w)) w)))) in
  Part000.step w (Part000.Socket (Part000.OnReadStdin cb)) = w1
  ∧ MainTs.step w (MainTs.Socket (MainTs.OnReadLine cb)) = w1.
Proof.
  destruct w; simpl; intros -> ->. js_unfold. setters. simpl.
  unfold clear_sequence. rewrite <- !app_assoc. simpl. done.
Qed.

(** The arrival of a chunk when one request listens. *)
Lemma stdin_data_single (w : World) (cb : nat) (chunk : string) :
  exited w = None → stdin_flowing w = true → stdin_once w = [cb] →
  let w2 :=
    set_stdin_once [] (set_stdin_flowing false
      (set_trace (trace w ++ [StdinPause; Ack cb (AckLine chunk)]) w)) in
  Part000.step w (Part000.StdinData chunk) = w2
  ∧ MainTs.step w (MainTs.StdinData chunk) = w2.
Proof.
  destruct w; simpl; intros -> -> ->. js_unfold. setters. simpl.
  rewrite <- !app_assoc. simpl. done.
Qed.

(** C8, as amended.  An input-line request received while loading first
    stops the loading (the interval is disarmed and forgotten, the line is
    cleared), then resumes stdin and listens; the chunk that arrives next
    is acknowledged whole, as it came, the stream is paused and the
    listener is gone, in both variants alike.  No request was listening
    before. *)
Theorem input_request_while_loading (w : World) (cb h : nat) (chunk : string) :
  exited w = None → loadingInterval w = Some h → stdin_once w = [] →
  let w1 :=
    set_stdin_once [cb] (set_stdin_flowing true
      (set_trace (trace w ++ [StdoutWrite clear_sequence; StdinResume;
                              StdinSetEncoding "utf8"])
         (set_loadingInterval None (set_timers (delete h (timers w)) w)))) in
  let w2 :=
    set_stdin_once [] (set_stdin_flowing false
      (set_trace (trace w1 ++ [StdinPause; Ack cb (AckLine chunk)]) w1)) in
  Part000.step w (Part000.Socket (Part000.OnReadStdin cb)) = w1
  ∧ Part000.step w1 (Part000.StdinData chunk) = w2
  ∧ MainTs.step w (MainTs.Socket (MainTs.OnReadLine cb)) = w1
  ∧ MainTs.step w1 (MainTs.StdinData chunk) = w2
  ∧ loadingInterval w2 = None ∧ timers w2 !! h = None ∧ stdin_once w2 = [].
Proof.
  intros Hx Hl Ho w1 w2.
  destruct (input_request_stops_loading w cb h Hx Hl) as [H1 H1'].
  rewrite Ho in H1, H1'.
  destruct (stdin_data_single w1 cb chunk) as [H2 H2']; [exact Hx | done | done |].
  split_and!; try done.
  apply lookup_delete_eq.
Qed.

(** The request arrives while the connection spinner of [main] runs. *)
Lemma input_request_while_loading_witness :
  let w := Part000.start plain_process in
  exited w = None ∧ loadingInterval w = Some 1 ∧ stdin_once w = []
  ∧ trace (Part000.step (Part000.step w (Part000.Socket (Part000.OnReadStdin 7)))
                          (Part000.StdinData ("yes" +:+ LF))) =
      trace w ++ [StdoutWrite clear_sequence; StdinResume; StdinSetEncoding "utf8";
                  StdinPause; Ack 7 (AckLine ("yes" +:+ LF))].
Proof.
  intros w.
  destruct (input_request_while_loading w 7 1 ("yes" +:+ LF) eq_refl eq_refl eq_refl)
    as (H1 & H2 & _).
  do 3 (split; [reflexivity|]).
  rewrite H1, H2. reflexivity.
Defined.

(** A chunk of two lines is acknowledged as one value: what the request
    resolves with is not always one line. *)
Lemma input_request_may_resolve_with_two_lines :
  let w := Part000.start plain_process in
  let chunk := "first" +:+ LF +:+ "second" +:+ LF in
  loadingInterval w = Some 1
  ∧ last (trace (Part000.run w [Part000.Socket (Part000.OnReadStdin 7);
                                 Part000.StdinData chunk])) = Some (Ack 7 (AckLine chunk))
  ∧ one_line chunk = false.
Proof. vm_compute. done. Qed.

(** ** Debug logging *)

Ltac grows_leaf tac :=
  unfold grows; simpl; split; [done|];
  first [ by (exists []; rewrite app_nil_r)
        | eexists; split; [reflexivity | repeat constructor; tac] ].

Lemma debugLog_not_a_log message : respects (grows not_a_log) (debugLog message).
Proof.
  intros w. rewrite (debugLog_logged message w : (debugLog message w).2 = _).
  split; [by destruct w|]. exists (logged w message).
  split; [by destruct w|].
  unfold logged, debug_enabled, not_a_log.
  destruct (truthy_string _); repeat constructor. done.
Qed.

Lemma debugLog_any message : respects (grows any_effect) (debugLog message).
Proof.
  intros w. rewrite (debugLog_logged message w : (debugLog message w).2 = _).
  split; [by destruct w|]. exists (logged w message).
  split; [by destruct w|]. by apply Forall_forall.
Qed.

Lemma debugLog_logs_line message : respects (logs_line message) (debugLog message).
Proof.
  intros w. rewrite (debugLog_logged message w : (debugLog message w).2 = _).
  split; [by destruct w|]. exists (logged w message).
  split; [by destruct w|]. intros Hd. unfold logged. rewrite Hd. set_solver.
Qed.

(** With the toggle unset no action of either variant logs. *)
Lemma dispatch_not_a_log (ev : Part000.Event) :
  respects (grows not_a_log) (Part000.dispatch ev).
Proof.
  destruct ev as [e | h | chunk | c error out err | c message]; [destruct e|..];
    js_layers;
    respects_walk ltac:(on_debugLog debugLog_not_a_log) ltac:(grows_leaf ltac:(by intros _)).
Qed.

Lemma dispatch_not_a_log_main (ev : MainTs.Event) :
  respects (grows not_a_log) (MainTs.dispatch ev).
Proof.
  destruct ev as [e | h | chunk | c error out err | c message]; [destruct e|..];
    js_layers;
    respects_walk ltac:(on_debugLog debugLog_not_a_log) ltac:(grows_leaf ltac:(by intros _)).
Qed.

(** The handlers of direct output and of input requests never log. *)
Lemma print_never_logs text cb : respects (grows never_a_log) (Part000.on_print text cb).
Proof. js_layers. respects_walk ltac:(fail) ltac:(grows_leaf ltac:(done)). Qed.

Lemma readStdin_never_logs cb : respects (grows never_a_log) (Part000.on_readStdin cb).
Proof. js_layers. respects_walk ltac:(fail) ltac:(grows_leaf ltac:(done)). Qed.

Lemma emitToStdout_never_logs text cb :
  respects (grows never_a_log) (MainTs.on_emitToStdout text cb).
Proof. js_layers. respects_walk ltac:(fail) ltac:(grows_leaf ltac:(done)). Qed.

Lemma readLine_never_logs cb : respects (grows never_a_log) (MainTs.on_readLine cb).
Proof. js_layers. respects_walk ltac:(fail) ltac:(grows_leaf ltac:(done)). Qed.

(** A line logged in the middle of a sequence is logged by the sequence. *)
Lemma logs_line_then {A B} message (m : M A) (k : A → M B) :
  respects (logs_line message) m → (∀ a, respects (grows any_effect) (k a)) →
  respects (logs_line message) (m ≫= k).
Proof.
  intros Hm Hk w. unfold mbind, M_bind.
  destruct (Hm w) as (Hp & new & Ht & Hin).
  destruct (Hk (m w).1 (m w).2) as (Hp' & new' & Ht' & _).
  split; [congruence|]. exists (new ++ new'). split.
  - by rewrite Ht', Ht, app_assoc.
  - intros Hd. apply elem_of_app. left. by apply Hin.
Qed.

Lemma logs_line_after {A B} message (m : M A) (k : A → M B) :
  respects (grows any_effect) m → (∀ a, respects (logs_line message) (k a)) →
  respects (logs_line message) (m ≫= k).
Proof.
  intros Hm Hk w. unfold mbind, M_bind.
  destruct (Hm w) as (Hp & new & Ht & _).
  destruct (Hk (m w).1 (m w).2) as (Hp' & new' & Ht' & Hin).
  split; [congruence|]. exists (new ++ new'). split.
  - by rewrite Ht', Ht, app_assoc.
  - intros Hd. apply elem_of_app. right. apply Hin.
    unfold debug_enabled in *. by rewrite Hp.
Qed.

Ltac any_effect_walk :=
  js_layers; respects_walk ltac:(on_debugLog debugLog_any) ltac:(grows_leaf ltac:(done)).

(** Finds the [debugLog] of the line in a sequence of actions. *)
Ltac find_log :=
  first
    [ apply debugLog_logs_line
    | apply logs_line_then; [find_log | intros ?; solve [any_effect_walk]]
    | apply logs_line_after; [solve [any_effect_walk] | intros ?; find_log] ].

Lemma handle_announces (e : Part000.ServerEvent) (message : string) :
  announcement e = Some message → respects (logs_line message) (Part000.handle e).
Proof.
  destruct e; simpl; intros [= <-];
    unfold Part000.handle, Part000.on_connect, Part000.on_getEnvInfo,
      Part000.on_runCommand, Part000.on_startLoading, Part000.on_stopLoading,
      Part000.on_terminate, Part000.on_disconnect, Part000.startLoading;
    find_log.
Qed.

Lemma handle_announces_main (e : MainTs.ServerEvent) (message : string) :
  announcement_main e = Some message → respects (logs_line message) (MainTs.handle e).
Proof.
  destruct e; simpl; intros [= <-];
    unfold MainTs.handle, MainTs.on_connect, MainTs.on_getEnvInfo,
      MainTs.on_runCommand, MainTs.on_startLoading, MainTs.on_stopLoading,
      MainTs.on_terminate, MainTs.on_disconnect, MainTs.startLoading;
    find_log.
Qed.

(** C9, as amended.  With the debug toggle set, the handler of every
    socket event but the direct-output and the input-line request logs its
    tagged line ([announcement]: the command text for an execution
    request, the text and the deadline for a start of loading, a fixed
    line for the others), and the handlers of the direct-output and the
    input-line request log nothing.  With the toggle unset, no event of any
    kind adds a log line. *)
Theorem debug_log_coverage (w : World) :
  exited w = None →
  (debug_enabled w = true →
     (∀ e, ∃ new, trace (Part000.step w (Part000.Socket e)) = trace w ++ new ∧
        match announcement e with
        | Some message => ConsoleLog (tag +:+ message) ∈ new
        | None => Forall (λ x, is_log x = false) new
        end)
     ∧ (∀ e, ∃ new, trace (MainTs.step w (MainTs.Socket e)) = trace w ++ new ∧
        match announcement_main e with
        | Some message => ConsoleLog (tag +:+ message) ∈ new
        | None => Forall (λ x, is_log x = false) new
        end))
  ∧ (debug_enabled w = false →
     (∀ ev, ∃ new, trace (Part000.step w ev) = trace w ++ new ∧
                   Forall (λ x, is_log x = false) new)
     ∧ (∀ ev, ∃ new, trace (MainTs.step w ev) = trace w ++ new ∧
                     Forall (λ x, is_log x = false) new)).
Proof.
  intros Hx. split; intros Hd; split.
  - intros e. unfold Part000.step. rewrite Hx. simpl.
    destruct (announcement e) as [message|] eqn:Ha.
    + destruct (handle_announces e message Ha w) as (_ & new & Ht & Hin).
      exists new. auto.
    + destruct e; try discriminate Ha.
      * destruct (print_never_logs text cb w) as (_ & new & Ht & Hall). by exists new.
      * destruct (readStdin_never_logs cb w) as (_ & new & Ht & Hall). by exists new.
  - intros e. unfold MainTs.step. rewrite Hx. simpl.
    destruct (announcement_main e) as [message|] eqn:Ha.
    + destruct (handle_announces_main e message Ha w) as (_ & new & Ht & Hin).
      exists new. auto.
    + destruct e; try discriminate Ha.
      * destruct (emitToStdout_never_logs text cb w) as (_ & new & Ht & Hall). by exists new.
      * destruct (readLine_never_logs cb w) as (_ & new & Ht & Hall). by exists new.
  - intros ev. unfold Part000.step. rewrite Hx.
    destruct (dispatch_not_a_log ev w) as (_ & new & Ht & Hall).
    exists new. split; [done|]. eapply Forall_impl; [exact Hall|].
    intros x Hn. by apply Hn.
  - intros ev. unfold MainTs.step. rewrite Hx.
    destruct (dispatch_not_a_log_main ev w) as (_ & new & Ht & Hall).
    exists new. split; [done|]. eapply Forall_impl; [exact Hall|].
    intros x Hn. by apply Hn.
Qed.

(** An execution request in a process started with [CODAPT_DEBUG=1]. *)
Lemma debug_log_coverage_witness :
  let w := Part000.start debug_process in
  let e := Part000.OnRunCommand (Part000.mkPayload "ls -l" None None) 1 true in
  exited w = None ∧ debug_enabled w = true
  ∧ ∃ new, trace (Part000.step w (Part000.Socket e)) = trace w ++ new
           ∧ ConsoleLog (tag +:+ "Received command: ls -l") ∈ new.
Proof.
  intros w e.
  destruct (debug_log_coverage w eq_refl) as [Hon _].
  destruct (Hon eq_refl) as [Hpart _].
  split; [reflexivity|]. split; [reflexivity|]. exact (Hpart e).
Defined.

(** With the toggle set, a direct-output request adds no log line: the
    handler of [print] writes and acknowledges, and that is all. *)
Lemma print_is_not_logged :
  let w := Part000.start debug_process in
  debug_enabled w = true
  ∧ trace (Part000.step w (Part000.Socket (Part000.OnPrint "hello" 1))) =
      trace w ++ [StdoutWrite clear_sequence; StdoutWrite "hello"; StdoutWrite "";
                  Ack 1 AckVoid]
  ∧ trace (Part000.step w (Part000.Socket (Part000.OnReadStdin 2))) =
      trace w ++ [StdoutWrite clear_sequence; StdinResume; StdinSetEncoding "utf8"].
Proof. vm_compute. done. Qed.

(** ** Command execution *)

(** An execution request whose executor does not throw: the line is
    logged, [exec] is called with the command and the timeout of the
    payload, the stdin of the payload (if any) is written and ended, and
    the promise of the new child is pending, with the ['error'] listener
    and the reaction of the handler on it. *)
Lemma runCommand_request (w : World) (payload : Part000.CommandPayload)
    (cb : nat) (cs : bool) :
  exited w = None → Part000.stdin payload = None ∨ cs = true →
  let c := next_child w in
  Part000.step w (Part000.Socket (Part000.OnRunCommand payload cb cs)) =
    set_next_child (S c)
      (set_children
         (<[c := mkChild Pending true (Some (Part000.command payload, cb))]> (children w))
         (set_trace (trace w ++ logged w ("Received command: " +:+ Part000.command payload)
                       ++ [Exec c (Part000.command payload) (Part000.timeoutMs payload)]
                       ++ stdin_ops c (Part000.stdin payload)) w)).
Proof.
  destruct w, payload as [cmd input t]; simpl; intros -> Hs.
  unfold logged, debug_enabled; simpl.
  destruct (truthy_string (env proc0 !! "CODAPT_DEBUG")) eqn:Hd;
    destruct input as [s|]; try (destruct Hs as [Hs|Hs]; [discriminate Hs|subst cs]);
    js_unfold; simpl; rewrite ?Hd; simpl;
    rewrite ?alter_insert_eq, ?insert_insert_eq; simpl;
    rewrite ?lookup_insert_eq; simpl;
    setters; rewrite <- ?app_assoc; reflexivity.
Qed.

(** A request with input whose child comes without a stdin stream: the
    executor throws before it listens for ['error'], the promise is
    rejected with the [Error], and the [.catch] callback acknowledges with
    that [Error]. *)
Lemma runCommand_throws (w : World) (payload : Part000.CommandPayload)
    (cb : nat) (s : string) :
  exited w = None → Part000.stdin payload = Some s →
  let c := next_child w in
  let thrown := "unexpected: child.stdin is null" in
  Part000.step w (Part000.Socket (Part000.OnRunCommand payload cb false)) =
    set_next_child (S c)
      (set_children
         (<[c := mkChild (Rejected (Thrown thrown)) false
                   (Some (Part000.command payload, cb))]> (children w))
         (set_trace (trace w ++ logged w ("Received command: " +:+ Part000.command payload)
                       ++ [Exec c (Part000.command payload) (Part000.timeoutMs payload)]
                       ++ logged w ("Command failed: " +:+ Part000.command payload)
                       ++ [Ack cb (AckError thrown)]) w)).
Proof.
  destruct w, payload as [cmd input t]; simpl; intros -> ->.
  unfold logged, debug_enabled; simpl.
  destruct (truthy_string (env proc0 !! "CODAPT_DEBUG")) eqn:Hd;
    js_unfold; simpl; rewrite ?Hd; simpl;
    rewrite ?lookup_insert_eq; simpl;
    rewrite ?alter_insert_eq, ?insert_insert_eq; simpl;
    rewrite ?lookup_insert_eq; simpl; rewrite ?Hd; simpl;
    js_unfold; simpl; rewrite ?Hd; simpl;
    setters; rewrite <- ?app_assoc; reflexivity.
Qed.

(** The same request in [main.ts], which has no stdin to pass. *)
Lemma runCommand_request_main (w : World) (payload : MainTs.CommandPayload) (cb : nat) :
  exited w = None →
  let c := next_child w in
  MainTs.step w (MainTs.Socket (MainTs.OnRunCommand payload cb)) =
    set_next_child (S c)
      (set_children
         (<[c := mkChild Pending true (Some (MainTs.command payload, cb))]> (children w))
         (set_trace (trace w ++ logged w ("Received command: " +:+ MainTs.command payload)
                       ++ [Exec c (MainTs.command payload) (MainTs.timeoutMs payload)]) w)).
Proof.
  destruct w, payload as [cmd t]; simpl; intros ->.
  unfold logged, debug_enabled; simpl.
  destruct (truthy_string (env proc0 !! "CODAPT_DEBUG")) eqn:Hd;
    js_unfold; simpl; rewrite ?Hd; simpl;
    rewrite ?alter_insert_eq, ?insert_insert_eq; simpl;
    rewrite ?lookup_insert_eq; simpl;
    setters; rewrite <- ?app_assoc; reflexivity.
Qed.

(** The ['error'] event of a child whose promise is pending rejects it,
    and the [.catch] callback acknowledges with the rejection. *)
Lemma child_error_rejects (w : World) (c cb : nat) (cmd message : string) :
  exited w = None →
  children w !! c = Some (mkChild Pending true (Some (cmd, cb))) →
  let failure := mkResponse (-1) "" message in
  Part000.step w (Part000.ChildError c message) =
    set_trace (trace w ++ logged w ("Command failed: " +:+ cmd)
                 ++ [Ack cb (AckResponse failure)])
      (set_children
         (<[c := mkChild (Rejected (RejectedWith failure)) true (Some (cmd, cb))]>
            (children w)) w).
Proof.
  destruct w; simpl; intros -> Hc.
  unfold logged, debug_enabled; simpl.
  destruct (truthy_string (env proc0 !! "CODAPT_DEBUG")) eqn:Hd;
    js_unfold; simpl; rewrite ?Hc; simpl; rewrite ?Hc; simpl; rewrite ?Hd; simpl;
    setters; rewrite <- ?app_assoc; reflexivity.
Qed.

(** The callback of [exec] for a child whose promise is pending resolves
    it, and the [.then] callback acknowledges with the response. *)
Lemma exec_callback_resolves (w : World) (c cb : nat) (cmd : string) (l : bool)
    (error : option ExecException) (out err : string) :
  exited w = None →
  children w !! c = Some (mkChild Pending l (Some (cmd, cb))) →
  Part000.step w (Part000.ExecCallback c error out err) =
    set_trace (trace w ++ logged w ("Command succeeded: " +:+ cmd)
                 ++ [Ack cb (AckResponse (response_of error out err))])
      (set_children
         (<[c := mkChild (Resolved (response_of error out err)) l (Some (cmd, cb))]>
            (children w)) w).
Proof.
  destruct w; simpl; intros -> Hc.
  unfold logged, debug_enabled; simpl.
  destruct (truthy_string (env proc0 !! "CODAPT_DEBUG")) eqn:Hd;
    destruct error as [e|];
    js_unfold; simpl; rewrite ?Hc; simpl; rewrite ?Hd; simpl;
    setters; rewrite <- ?app_assoc; reflexivity.
Qed.

(** A settled promise stays as it is: neither the callback of [exec] nor
    the ['error'] event of its child does anything more. *)
Lemma settled_is_final (w : World) (c : nat) (child : Child) :
  children w !! c = Some child → promise child ≠ Pending →
  (∀ error out err, Part000.step w (Part000.ExecCallback c error out err) = w)
  ∧ (∀ message, Part000.step w (Part000.ChildError c message) = w).
Proof.
  destruct w, child as [p l r]; simpl; intros Hc Hp.
  split; [intros [e|] out err | intros message];
    js_unfold; simpl; destruct exited0; try done; rewrite ?Hc; simpl;
    destruct l; simpl; rewrite ?Hc; simpl; by destruct p.
Qed.

Lemma debugLog_undisturbed c message : respects (undisturbed c) (debugLog message).
Proof.
  unfold debugLog. js_layers. respects_walk ltac:(fail) ltac:(by split_and!).
Qed.

Ltac undisturbed_leaf :=
  unfold undisturbed; simpl; split_and!;
  [ done | done
  | intros ?; split; [lia | rewrite ?lookup_insert_ne by done; done] ].

(** An execution request makes a new child, and leaves the others. *)
Lemma runCommand_undisturbed c payload cb cs :
  respects (undisturbed c) (Part000.on_runCommand payload cb cs).
Proof.
  intros w. destruct w, payload as [cmd input t].
  destruct (truthy_string (env proc0 !! "CODAPT_DEBUG")) eqn:Hd;
    destruct input as [s|]; try destruct cs;
    js_unfold; simpl; rewrite ?Hd; simpl;
    rewrite ?lookup_insert_eq; simpl;
    rewrite ?alter_insert_eq, ?insert_insert_eq; simpl;
    rewrite ?lookup_insert_eq; simpl; rewrite ?Hd; simpl;
    js_unfold; simpl; rewrite ?Hd; simpl;
    unfold undisturbed; setters;
    (split_and!; [done | done | intros Hlt; split; [lia|];
                                 rewrite ?lookup_insert_ne by lia; done]).
Qed.

Lemma dispatch_undisturbed (c : nat) (ev : Part000.Event) :
  elsewhere c ev = true → respects (undisturbed c) (Part000.dispatch ev).
Proof.
  intros Hq. destruct ev as [e | h | chunk | c' error out err | c' message];
    simpl in Hq; try apply bool_decide_eq_true in Hq.
  - destruct e; try discriminate Hq;
      lazymatch goal with
      | |- respects _ (Part000.dispatch (Part000.Socket (Part000.OnRunCommand ?p ?k ?s))) =>
          exact (runCommand_undisturbed c p k s)
      | _ => respects_walk ltac:(on_debugLog debugLog_undisturbed) undisturbed_leaf
      end.
  - js_layers. respects_walk ltac:(on_debugLog debugLog_undisturbed) undisturbed_leaf.
  - js_layers. respects_walk ltac:(on_debugLog debugLog_undisturbed) undisturbed_leaf.
  - js_layers. respects_walk ltac:(on_debugLog debugLog_undisturbed) undisturbed_leaf.
  - js_layers. respects_walk ltac:(on_debugLog debugLog_undisturbed) undisturbed_leaf.
Qed.

Lemma run_undisturbed (c : nat) (w : World) (evs : list Part000.Event) :
  Forall (λ ev, elsewhere c ev = true) evs → undisturbed c w (Part000.run w evs).
Proof.
  intros Hq. revert w. induction Hq as [|ev evs Hev _ IH]; intros w.
  - reflexivity.
  - unfold Part000.run. simpl. etrans; [|apply IH].
    unfold Part000.step. destruct (exited w); [reflexivity|].
    apply respects_exec_M, dispatch_undisturbed, Hev.
Qed.

(** The state in which a request waits for its child: the request has
    been made, and events that concern other things have passed. *)
Lemma runCommand_waits (w : World) (payload : Part000.CommandPayload) (cb : nat)
    (cs : bool) (evs : list Part000.Event) :
  exited w = None → Part000.stdin payload = None ∨ cs = true →
  Forall (λ ev, elsewhere (next_child w) ev = true) evs →
  let w1 := Part000.run
              (Part000.step w (Part000.Socket (Part000.OnRunCommand payload cb cs))) evs in
  exited w1 = None ∧ proc w1 = proc w
  ∧ children w1 !! next_child w =
      Some (mkChild Pending true (Some (Part000.command payload, cb))).
Proof.
  intros Hx Hs Hq w1.
  destruct (run_undisturbed (next_child w)
              (Part000.step w (Part000.Socket (Part000.OnRunCommand payload cb cs)))
              evs Hq) as (Hx1 & Hp1 & Hc1).
  fold w1 in Hx1, Hp1, Hc1.
  rewrite (runCommand_request w payload cb cs Hx Hs) in Hx1, Hp1, Hc1.
  simpl in Hx1, Hp1, Hc1.
  destruct Hc1 as [_ Hc1]; [lia|].
  split_and!; [congruence | done |]. rewrite Hc1. apply lookup_insert_eq.
Qed.



Lemma debugLog_never_child_stdin message :
  respects (grows never_child_stdin) (debugLog message).
Proof.
  intros w. rewrite (debugLog_logged message w : (debugLog message w).2 = _).
  split; [by destruct w|]. exists (logged w message).
  split; [by destruct w|].
  unfold logged. destruct (debug_enabled w); by repeat constructor.
Qed.

(** No handler but that of an execution request touches the stdin of a
    child. *)
Lemma dispatch_never_child_stdin (ev : Part000.Event) :
  is_request ev = false → respects (grows never_child_stdin) (Part000.dispatch ev).
Proof.
  intros Hq.
  destruct ev as [e | h | chunk | c error out err | c message];
    [destruct e; try discriminate Hq|..];
    respects_walk ltac:(on_debugLog debugLog_never_child_stdin)
      ltac:(grows_leaf ltac:(done)).
Qed.

Lemma dispatch_never_child_stdin_main (ev : MainTs.Event) :
  respects (grows never_child_stdin) (MainTs.dispatch ev).
Proof.
  destruct ev as [e | h | chunk | c error out err | c message]; [destruct e|..];
    respects_walk ltac:(on_debugLog debugLog_never_child_stdin)
      ltac:(grows_leaf ltac:(done)).
Qed.

(** C4.  An execution request of [part_000] whose [stdin] is a string,
    the child having its stdin stream: right after the call of [exec] that
    string, and nothing else, is written to the stdin of the new child, and
    the stream is ended.  A request whose [stdin] is null writes nothing to
    the child and does not end its stream.  No other event of [part_000],
    and no event at all of [main.ts] (whose payload has no stdin), does
    anything with the stdin of a child. *)
Theorem stdin_is_written_then_closed (w : World) (payload : Part000.CommandPayload)
    (cb : nat) :
  exited w = None →
  let c := next_child w in
  let called := logged w ("Received command: " +:+ Part000.command payload)
                  ++ [Exec c (Part000.command payload) (Part000.timeoutMs payload)] in
  (∀ s, Part000.stdin payload = Some s →
        trace (Part000.step w (Part000.Socket (Part000.OnRunCommand payload cb true))) =
          trace w ++ called ++ [ChildStdinWrite c s; ChildStdinEnd c])
  ∧ (∀ cs, Part000.stdin payload = None →
        trace (Part000.step w (Part000.Socket (Part000.OnRunCommand payload cb cs))) =
          trace w ++ called)
  ∧ (∀ ev, is_request ev = false →
        ∃ new, trace (Part000.step w ev) = trace w ++ new
               ∧ Forall (λ e, is_child_stdin e = false) new)
  ∧ (∀ ev, ∃ new, trace (MainTs.step w ev) = trace w ++ new
                  ∧ Forall (λ e, is_child_stdin e = false) new).
Proof.
  intros Hx c called. split_and!.
  - intros s Hs. rewrite (runCommand_request w payload cb true Hx (or_intror eq_refl)).
    simpl. rewrite Hs. unfold called. simpl. by rewrite <- !app_assoc.
  - intros cs Hs. rewrite (runCommand_request w payload cb cs Hx (or_introl Hs)).
    simpl. rewrite Hs. unfold called. simpl. by rewrite ?app_nil_r, <- ?app_assoc.
  - intros ev Hq. unfold Part000.step. rewrite Hx.
    destruct (dispatch_never_child_stdin ev Hq w) as (_ & new & Ht & Hall).
    by exists new.
  - intros ev. unfold MainTs.step. rewrite Hx.
    destruct (dispatch_never_child_stdin_main ev w) as (_ & new & Ht & Hall).
    by exists new.
Qed.

(** [cat], fed with a line. *)
Lemma stdin_is_written_then_closed_witness :
  let w := Part000.start plain_process in
  let payload := Part000.mkPayload "cat" (Some ("hello" +:+ LF)) None in
  exited w = None
  ∧ trace (Part000.step w (Part000.Socket (Part000.OnRunCommand payload 5 true))) =
      trace w ++ [Exec 0 "cat" None; ChildStdinWrite 0 ("hello" +:+ LF); ChildStdinEnd 0].
Proof.
  intros w payload.
  destruct (stdin_is_written_then_closed w payload 5 eq_refl) as [Hw _].
  split; [reflexivity|]. exact (Hw _ eq_refl).
Defined.

(** What a request that waits for its child is acknowledged with, when
    the callback of [exec] comes. *)
Lemma request_resolves (w : World) (payload : Part000.CommandPayload) (cb : nat)
    (cs : bool) (evs : list Part000.Event)
    (error : option ExecException) (out err : string) :
  exited w = None → Part000.stdin payload = None ∨ cs = true →
  Forall (λ ev, elsewhere (next_child w) ev = true) evs →
  let c := next_child w in
  let w1 := Part000.run
              (Part000.step w (Part000.Socket (Part000.OnRunCommand payload cb cs))) evs in
  let w2 := Part000.step w1 (Part000.ExecCallback c error out err) in
  trace w2 = trace w1 ++ logged w ("Command succeeded: " +:+ Part000.command payload)
               ++ [Ack cb (AckResponse (response_of error out err))]
  ∧ (∀ error' out' err', Part000.step w2 (Part000.ExecCallback c error' out' err') = w2)
  ∧ (∀ message, Part000.step w2 (Part000.ChildError c message) = w2).
Proof.
  intros Hx Hs Hq c w1 w2.
  destruct (runCommand_waits w payload cb cs evs Hx Hs Hq) as (Hx1 & Hp1 & Hc1).
  fold w1 in Hx1, Hp1, Hc1. fold c in Hc1.
  assert (E : w2 = set_trace (trace w1 ++ logged w1 ("Command succeeded: " +:+ Part000.command payload)
                                ++ [Ack cb (AckResponse (response_of error out err))])
                     (set_children
                        (<[c := mkChild (Resolved (response_of error out err)) true
                                  (Some (Part000.command payload, cb))]> (children w1)) w1))
    by (apply exec_callback_resolves; done).
  assert (Hc2 : children w2 !! c =
                Some (mkChild (Resolved (response_of error out err)) true
                        (Some (Part000.command payload, cb))))
    by (rewrite E; simpl; apply lookup_insert_eq).
  split_and!.
  - rewrite E. simpl. unfold logged, debug_enabled. by rewrite Hp1.
  - by apply (settled_is_final w2 c _ Hc2).
  - by apply (settled_is_final w2 c _ Hc2).
Qed.



(** C7.  An execution request whose child runs to a normal exit with
    status [status], which [exec] reports to its callback with what the
    child wrote to stdout and to stderr ([exit_report]): the request is
    acknowledged, once, with that status as exit code and with exactly
    those two strings. *)
Theorem normal_exit_is_reported (w : World) (payload : Part000.CommandPayload)
    (cb : nat) (cs : bool) (evs : list Part000.Event) (status : Z) (out err : string) :
  exited w = None → Part000.stdin payload = None ∨ cs = true →
  Forall (λ ev, elsewhere (next_child w) ev = true) evs →
  let c := next_child w in
  let w1 := Part000.run
              (Part000.step w (Part000.Socket (Part000.OnRunCommand payload cb cs))) evs in
  let w2 := Part000.step w1 (Part000.ExecCallback c (exit_report status) out err) in
  trace w2 = trace w1 ++ logged w ("Command succeeded: " +:+ Part000.command payload)
               ++ [Ack cb (AckResponse (mkResponse status out err))]
  ∧ (∀ error' out' err', Part000.step w2 (Part000.ExecCallback c error' out' err') = w2)
  ∧ (∀ message, Part000.step w2 (Part000.ChildError c message) = w2).
Proof.
  intros Hx Hs Hq c w1 w2.
  assert (E : response_of (exit_report status) out err = mkResponse status out err).
  { unfold response_of, exit_report, code_or_minus_one.
    destruct (decide (status = 0%Z)) as [->|Hne]; [done|]. simpl.
    by destruct (decide (status = 0%Z)). }
  rewrite <- E.
  exact (request_resolves w payload cb cs evs (exit_report status) out err Hx Hs Hq).
Qed.

(** [grep] that finds nothing exits with status 1. *)
Lemma normal_exit_is_reported_witness :
  let w := Part000.start plain_process in
  let payload := Part000.mkPayload "grep x /dev/null" None None in
  let evs := [Part000.Socket (Part000.OnPrint "searching" 2)] in
  let w1 := Part000.run
              (Part000.step w (Part000.Socket (Part000.OnRunCommand payload 4 true))) evs in
  exited w = None
  ∧ Forall (λ ev, elsewhere (next_child w) ev = true) evs
  ∧ trace (Part000.step w1 (Part000.ExecCallback 0 (exit_report 1) "" "")) =
      trace w1 ++ [Ack 4 (AckResponse (mkResponse 1 "" ""))].
Proof.
  intros w payload evs w1.
  assert (Hq : Forall (λ ev, elsewhere (next_child w) ev = true) evs)
    by (repeat constructor).
  destruct (normal_exit_is_reported w payload 4 true evs 1 "" ""
              eq_refl (or_introl eq_refl) Hq) as (H2 & _).
  split; [reflexivity|]. split; [exact Hq|]. exact H2.
Defined.

(** ** The loading indicator and its timers *)

(** What [startLoading] leaves armed: the interval of the session before
    is disarmed, a deadline (if one is given) and the new interval are
    armed under fresh handles, and the new interval is the one remembered
    in [loadingInterval]. *)
Lemma startLoading_state (w : World) (text : string) (t : option Z) (cb : nat) :
  exited w = None →
  let w' := Part000.step w (Part000.Socket (Part000.OnStartLoading text t cb)) in
  let stopped :=
    match loadingInterval w with Some h => delete h (timers w) | None => timers w end in
  let h := next_timer w in
  exited w' = None ∧
  match t with
  | Some ms =>
      timers w' = <[S h := mkTimer (Spinner text 0) 100 true]>
                    (<[h := mkTimer Deadline ms false]> stopped)
      ∧ loadingInterval w' = Some (S h) ∧ next_timer w' = S (S h)
  | None =>
      timers w' = <[h := mkTimer (Spinner text 0) 100 true]> stopped
      ∧ loadingInterval w' = Some h ∧ next_timer w' = S h
  end.
Proof.
  destruct w; simpl; intros ->.
  destruct (truthy_string (env proc0 !! "CODAPT_DEBUG")) eqn:Hd;
    destruct loadingInterval0, t; js_unfold; simpl; rewrite ?Hd; simpl; done.
Qed.

(** A deadline that fires stops whatever loading session there is. *)
Lemma deadline_fires (w : World) (h : nat) (ms : Z) :
  exited w = None → timers w !! h = Some (mkTimer Deadline ms false) →
  loadingInterval (Part000.step w (Part000.TimerFire h)) = None.
Proof.
  destruct w; simpl; intros -> Ht.
  js_unfold; simpl. rewrite Ht. simpl. by destruct loadingInterval0.
Qed.

(** The deadline of a call of [startLoading] outlives the session it was
    given for: after a second call it is still armed, and when it fires it
    stops the session of the second call. *)
Lemma earlier_deadline_stops_later_session (w : World)
    (text1 text2 : string) (ms : Z) (t2 : option Z) (cb1 cb2 : nat) :
  exited w = None →
  let h := next_timer w in
  let w2 := Part000.run w [Part000.Socket (Part000.OnStartLoading text1 (Some ms) cb1);
                           Part000.Socket (Part000.OnStartLoading text2 t2 cb2)] in
  timers w2 !! h = Some (mkTimer Deadline ms false)
  ∧ is_Some (loadingInterval w2)
  ∧ loadingInterval (Part000.step w2 (Part000.TimerFire h)) = None.
Proof.
  intros Hx h w2.
  destruct (startLoading_state w text1 (Some ms) cb1 Hx) as (Hx1 & Ht1 & Hl1 & Hn1).
  set (w1 := Part000.step w (Part000.Socket (Part000.OnStartLoading text1 (Some ms) cb1))) in *.
  destruct (startLoading_state w1 text2 t2 cb2 Hx1) as (Hx2 & H2).
  change (Part000.step w1 (Part000.Socket (Part000.OnStartLoading text2 t2 cb2)))
    with w2 in Hx2, H2.
  rewrite Hl1, Hn1, Ht1 in H2. fold h in H2.
  assert (Hh : timers w2 !! h = Some (mkTimer Deadline ms false)).
  { destruct t2 as [ms2|]; destruct H2 as (-> & _ & _);
      rewrite ?lookup_insert_ne by lia;
      rewrite lookup_delete_ne by lia;
      rewrite lookup_insert_ne by lia; apply lookup_insert_eq. }
  split_and!; [exact Hh | | by apply (deadline_fires w2 h ms)].
  destruct t2; destruct H2 as (_ & -> & _); by eexists.
Qed.

(** ** The timers of the loading indicator stay in order *)

Lemma stopLoading_timers_ok : respects keeps_timers_ok stopLoading.
Proof.
  intros w [Hf Hs]. destruct w; simpl in *.
  destruct loadingInterval0 as [h|]; js_unfold; simpl; [|done].
  split; simpl.
  - intros h' e Hl. apply lookup_delete_Some in Hl as [_ Hl]. by apply Hf.
  - intros h'. split; [|done].
    intros (e & Hl & Hsp). apply lookup_delete_Some in Hl as [Hne Hl].
    assert (Some h = Some h') by (apply Hs; by exists e). congruence.
Qed.

Lemma stopLoading_idle (w : World) : loadingInterval (exec_M stopLoading w) = None.
Proof. destruct w. js_unfold. simpl. by destruct loadingInterval0. Qed.

Lemma debugLog_timers_ok message : respects keeps_timers_ok (debugLog message).
Proof.
  unfold debugLog. js_layers. respects_walk ltac:(fail) ltac:(by unfold keeps_timers_ok).
Qed.

(** Arming the timers of a new session in a world that has none. *)
Lemma arm_session_timers_ok (w : World) (text : string) (t : option Z) :
  timers_ok w → loadingInterval w = None →
  timers_ok (exec_M (match t with
                     | Some ms => setTimeout Deadline ms;; mret tt
                     | None => mret tt
                     end;;
                     h ← setInterval (Spinner text 0) 100;
                     modify (set_loadingInterval (Some h))) w).
Proof.
  intros [Hf Hs] Hl. destruct w; simpl in *; subst.
  assert (Hnosp : ∀ h e, timers0 !! h = Some e → is_spinner e = false).
  { intros h e E. destruct (is_spinner e) eqn:Hsp; [|done].
    assert (None = Some h) by (apply Hs; by exists e). done. }
  destruct t as [ms|]; js_unfold; simpl; split; simpl.
  - intros h e Hl. apply lookup_insert_Some in Hl as [[<- <-]|[Hne Hl]]; [split; [lia|done]|].
    apply lookup_insert_Some in Hl as [[<- <-]|[Hne' Hl]]; [split; [lia|done]|].
    apply Hf in Hl. split; [lia|tauto].
  - intros h. split.
    + intros (e & Hl & Hsp).
      apply lookup_insert_Some in Hl as [[<- <-]|[Hne Hl]]; [done|].
      apply lookup_insert_Some in Hl as [[<- <-]|[Hne' Hl]]; [done|].
      apply Hnosp in Hl. congruence.
    + intros [= <-]. eexists. split; [apply lookup_insert_eq | done].
  - intros h e Hl. apply lookup_insert_Some in Hl as [[<- <-]|[Hne Hl]]; [split; [lia|done]|].
    apply Hf in Hl. split; [lia|tauto].
  - intros h. split.
    + intros (e & Hl & Hsp).
      apply lookup_insert_Some in Hl as [[<- <-]|[Hne Hl]]; [done|].
      apply Hnosp in Hl. congruence.
    + intros [= <-]. eexists. split; [apply lookup_insert_eq | done].
Qed.

Lemma startLoading_timers_ok text t : respects keeps_timers_ok (Part000.startLoading text t).
Proof.
  intros w Hok.
  set (msg := "Starting loading: " +:+ text +:+ " with timeoutMs=" +:+ template_number t).
  set (w1 := exec_M stopLoading w).
  assert (H1 : timers_ok w1) by (by apply stopLoading_timers_ok).
  assert (H2 : timers_ok (exec_M (debugLog msg) w1)) by (by apply debugLog_timers_ok).
  assert (H3 : loadingInterval (exec_M (debugLog msg) w1) = None).
  { rewrite debugLog_logged. simpl. apply stopLoading_idle. }
  exact (arm_session_timers_ok _ text t H2 H3).
Qed.

Lemma startLoading_timers_ok_main text t : respects keeps_timers_ok (MainTs.startLoading text t).
Proof.
  intros w Hok.
  set (msg := "Starting loading: " +:+ text +:+ " with timeout " +:+ template_number t +:+ "ms").
  set (w1 := exec_M stopLoading w).
  assert (H1 : timers_ok w1) by (by apply stopLoading_timers_ok).
  assert (H2 : timers_ok (exec_M (debugLog msg) w1)) by (by apply debugLog_timers_ok).
  assert (H3 : loadingInterval (exec_M (debugLog msg) w1) = None).
  { rewrite debugLog_logged. simpl. apply stopLoading_idle. }
  exact (arm_session_timers_ok _ text t H2 H3).
Qed.

(** Disarming a timer that is not the spinner interval. *)
Lemma disarm_deadline_timers_ok (w : World) (h : nat) (e : TimerEntry) :
  timers_ok w → timers w !! h = Some e → is_spinner e = false →
  timers_ok (set_timers (delete h (timers w)) w).
Proof.
  intros [Hf Hs] He Hsp. destruct w; simpl in *. split; simpl.
  - intros h' e' Hl. apply lookup_delete_Some in Hl as [_ Hl]. by apply Hf.
  - intros h'. rewrite <- Hs. split.
    + intros (e' & Hl & Hsp'). apply lookup_delete_Some in Hl as [_ Hl]. by exists e'.
    + intros (e' & Hl & Hsp'). exists e'. split; [|done].
      apply lookup_delete_Some. split; [|done]. intros <-. congruence.
Qed.

(** A tick changes the counter of the closure, and nothing else of the
    timers. *)
Lemma tick_timers_ok (w : World) (h : nat) (text : string) (i : nat) (e : TimerEntry) :
  timers_ok w → timers w !! h = Some e → is_spinner e = true →
  timers_ok (set_timers
               (alter (λ e, mkTimer (Spinner text i) (delay e) (repeat e)) h (timers w)) w).
Proof.
  intros [Hf Hs] He Hsp. destruct w; simpl in *. split; simpl.
  - intros h' e' Hl. destruct (decide (h = h')) as [<-|Hne].
    + rewrite lookup_alter_eq, He in Hl. simpl in Hl. injection Hl as <-.
      destruct (Hf _ _ He) as [Hlt Hr]. split; [done|]. simpl. by rewrite Hr, Hsp.
    + rewrite lookup_alter_ne in Hl by done. by apply Hf.
  - intros h'. rewrite <- Hs. destruct (decide (h = h')) as [<-|Hne].
    + rewrite lookup_alter_eq, He. simpl. split; intros _; eexists; done.
    + by rewrite lookup_alter_ne by done.
Qed.

Lemma fire_timers_ok h : respects keeps_timers_ok (Part000.fire h).
Proof.
  intros w Hok. unfold Part000.fire, gets, mbind, M_bind. simpl.
  destruct (timers w !! h) as [e|] eqn:He; [|done].
  destruct (proj1 Hok _ _ He) as [_ Hr].
  destruct e as [[text i|] d r]; unfold is_spinner in Hr; simpl in Hr; subst r; simpl.
  - unfold mret, M_ret. simpl.
    pose proof (tick_timers_ok w h text (S i mod length spinnerChars) _ Hok He eq_refl) as H.
    destruct w. js_unfold. simpl in *. exact H.
  - pose proof (disarm_deadline_timers_ok w h _ Hok He eq_refl) as H.
    apply stopLoading_timers_ok in H. destruct w. exact H.
Qed.

Lemma fire_timers_ok_main h : respects keeps_timers_ok (MainTs.fire h).
Proof.
  intros w Hok. unfold MainTs.fire, gets, mbind, M_bind. simpl.
  destruct (timers w !! h) as [e|] eqn:He; [|done].
  destruct (proj1 Hok _ _ He) as [_ Hr].
  destruct e as [[text i|] d r]; unfold is_spinner in Hr; simpl in Hr; subst r; simpl.
  - unfold mret, M_ret. simpl.
    pose proof (tick_timers_ok w h text (S i mod length spinnerChars) _ Hok He eq_refl) as H.
    destruct w. js_unfold. simpl in *. exact H.
  - pose proof (disarm_deadline_timers_ok w h _ Hok He eq_refl) as H.
    apply stopLoading_timers_ok in H. destruct w. exact H.
Qed.

Ltac timers_known :=
  idtac; match goal with
  | |- respects _ stopLoading => apply stopLoading_timers_ok
  | |- respects _ (debugLog _) => apply debugLog_timers_ok
  | |- respects _ (Part000.startLoading _ _) => apply startLoading_timers_ok
  | |- respects _ (MainTs.startLoading _ _) => apply startLoading_timers_ok_main
  | |- respects _ (Part000.fire _) => apply fire_timers_ok
  | |- respects _ (MainTs.fire _) => apply fire_timers_ok_main
  end.

Lemma dispatch_timers_ok (ev : Part000.Event) :
  respects keeps_timers_ok (Part000.dispatch ev).
Proof.
  destruct ev as [e | h | chunk | c error out err | c message]; [destruct e|..];
    respects_walk_with ltac:(js_handlers) ltac:(timers_known)
      ltac:(by unfold keeps_timers_ok).
Qed.

Lemma dispatch_timers_ok_main (ev : MainTs.Event) :
  respects keeps_timers_ok (MainTs.dispatch ev).
Proof.
  destruct ev as [e | h | chunk | c error out err | c message]; [destruct e|..];
    respects_walk_with ltac:(js_handlers) ltac:(timers_known)
      ltac:(by unfold keeps_timers_ok).
Qed.

Lemma boot_timers_ok (p : EnvInfo) : timers_ok (boot p).
Proof.
  split; simpl.
  - intros h e Hl. by rewrite lookup_empty in Hl.
  - intros h. split; [|done]. intros (e & Hl & _). by rewrite lookup_empty in Hl.
Qed.

(** In every world that the program of [part_000] can reach, the timers
    are in order: a spinner interval is armed exactly when a loading
    session is on, and it is the one of that session. *)
Lemma reachable_timers_ok (p : EnvInfo) (evs : list Part000.Event) :
  timers_ok (Part000.run (Part000.start p) evs).
Proof.
  assert (H0 : timers_ok (Part000.start p)).
  { assert (Hm : respects keeps_timers_ok Part000.main).
    { unfold Part000.main.
      respects_walk_with ltac:(js_handlers) ltac:(timers_known)
        ltac:(by unfold keeps_timers_ok). }
    apply Hm, boot_timers_ok. }
  revert H0. generalize (Part000.start p). induction evs as [|ev evs IH]; intros w Hw.
  - exact Hw.
  - unfold Part000.run. simpl. apply IH. unfold Part000.step.
    destruct (exited w); [exact Hw|]. by apply dispatch_timers_ok.
Qed.

Lemma reachable_timers_ok_main (p : EnvInfo) (evs : list MainTs.Event) :
  timers_ok (MainTs.run (MainTs.start p) evs).
Proof.
  assert (H0 : timers_ok (MainTs.start p)).
  { assert (Hm : respects keeps_timers_ok MainTs.main).
    { unfold MainTs.main.
      respects_walk_with ltac:(js_handlers) ltac:(timers_known)
        ltac:(by unfold keeps_timers_ok). }
    apply Hm, boot_timers_ok. }
  revert H0. generalize (MainTs.start p). induction evs as [|ev evs IH]; intros w Hw.
  - exact Hw.
  - unfold MainTs.run. simpl. apply IH. unfold MainTs.step.
    destruct (exited w); [exact Hw|]. by apply dispatch_timers_ok_main.
Qed.

(** After any call of [startLoading] in a reachable world exactly one
    spinner interval is armed: the one of the new session. *)
Lemma one_interval_after_startLoading (p : EnvInfo) (evs : list Part000.Event)
    (text : string) (t : option Z) (cb : nat) :
  let w := Part000.run (Part000.start p) evs in
  let w' := Part000.step w (Part000.Socket (Part000.OnStartLoading text t cb)) in
  exited w = None →
  ∃ h, loadingInterval w' = Some h
       ∧ ∀ h', (∃ e, timers w' !! h' = Some e ∧ is_spinner e = true) ↔ h' = h.
Proof.
  intros w w' Hx.
  assert (Hok : timers_ok w').
  { pose proof (reachable_timers_ok p
                  (evs ++ [Part000.Socket (Part000.OnStartLoading text t cb)])) as H.
    unfold Part000.run in H. rewrite foldl_app in H. exact H. }
  destruct (startLoading_state w text t cb Hx) as [_ Hst]. fold w' in Hst.
  assert (Hl : ∃ h, loadingInterval w' = Some h)
    by (destruct t; destruct Hst as (_ & -> & _); by eexists).
  destruct Hl as [h Hl]. exists h. split; [done|].
  intros h'. rewrite (proj2 Hok h'), Hl. split; [by intros [= ->] | by intros ->].
Qed.

(** C1, on the code.  [startLoading "Installing" 5000] followed by
    [startLoading "Building" null], in either variant: the interval of the
    first call is disarmed and the interval of the second is the only one
    armed, but the deadline of the first call (handle 0) is still armed;
    when it fires, it stops the loading session of the second call. *)
Theorem stale_deadline_stops_later_loading :
  (let w := Part000.run (boot plain_process)
              [Part000.Socket (Part000.OnStartLoading "Installing" (Some 5000%Z) 1);
               Part000.Socket (Part000.OnStartLoading "Building" None 2)] in
   map_to_list (timers w) =
     [(2, mkTimer (Spinner "Building" 0) 100 true); (0, mkTimer Deadline 5000 false)]
   ∧ loadingInterval w = Some 2
   ∧ loadingInterval (Part000.step w (Part000.TimerFire 0)) = None
   ∧ map_to_list (timers (Part000.step w (Part000.TimerFire 0))) = [])
  ∧ (let w := MainTs.run (boot plain_process)
                [MainTs.Socket (MainTs.OnStartLoading "Installing" (Some 5000%Z) 1);
                 MainTs.Socket (MainTs.OnStartLoading "Building" None 2)] in
     map_to_list (timers w) =
       [(2, mkTimer (Spinner "Building" 0) 100 true); (0, mkTimer Deadline 5000 false)]
     ∧ loadingInterval w = Some 2
     ∧ loadingInterval (MainTs.step w (MainTs.TimerFire 0)) = None
     ∧ map_to_list (timers (MainTs.step w (MainTs.TimerFire 0))) = []).
Proof. vm_compute. done. Qed.

(** * Further properties of the two variants *)

(** ** What ends the process, and what never changes *)

Global Instance same_exit_refl : Reflexive same_exit.
Proof. intros w. reflexivity. Qed.

Global Instance same_exit_trans : Transitive same_exit.
Proof. intros w1 w2 w3 H12 H23. unfold same_exit in *. congruence. Qed.






(** Every action of either variant leaves the process information as it
    is, and adds to the trace without touching what is there. *)
Lemma dispatch_any (ev : Part000.Event) : respects (grows any_effect) (Part000.dispatch ev).
Proof.
  destruct ev as [e | h | chunk | c error out err | c message]; [destruct e|..];
    respects_walk ltac:(on_debugLog debugLog_any) ltac:(grows_leaf ltac:(done)).
Qed.

Lemma dispatch_any_main (ev : MainTs.Event) : respects (grows any_effect) (MainTs.dispatch ev).
Proof.
  destruct ev as [e | h | chunk | c error out err | c message]; [destruct e|..];
    respects_walk ltac:(on_debugLog debugLog_any) ltac:(grows_leaf ltac:(done)).
Qed.

Lemma run_grows (w : World) (evs : list Part000.Event) :
  grows any_effect w (Part000.run w evs).
Proof.
  revert w. induction evs as [|ev evs IH]; intros w; [reflexivity|].
  unfold Part000.run. simpl. etrans; [|apply IH].
  unfold Part000.step. destruct (exited w); [reflexivity|]. apply dispatch_any.
Qed.

Lemma run_grows_main (w : World) (evs : list MainTs.Event) :
  grows any_effect w (MainTs.run w evs).
Proof.
  revert w. induction evs as [|ev evs IH]; intros w; [reflexivity|].
  unfold MainTs.run. simpl. etrans; [|apply IH].
  unfold MainTs.step. destruct (exited w); [reflexivity|]. apply dispatch_any_main.
Qed.

(** X2.  The environment request is answered, in its own step, with the
    argv, the environment, the working directory and the pid that the
    process started with, however many events of whatever kind came before
    (as long as the process lives): no handler changes them.  It is
    logged under the debug toggle, and does nothing else. *)
Theorem getEnvInfo_answers_with_the_start_snapshot (p : EnvInfo) (cb : nat)
    (evs : list Part000.Event) (evs' : list MainTs.Event) :
  (let w := Part000.run (Part000.start p) evs in
   exited w = None →
   Part000.step w (Part000.Socket (Part000.OnGetEnvInfo cb)) =
     set_trace (trace w ++ logged w "Received getEnvInfo request"
                        ++ [Ack cb (AckEnvInfo p)]) w)
  ∧ (let w := MainTs.run (MainTs.start p) evs' in
     exited w = None →
     MainTs.step w (MainTs.Socket (MainTs.OnGetEnvInfo cb)) =
       set_trace (trace w ++ logged w "Received getEnvInfo request"
                          ++ [Ack cb (AckEnvInfo p)]) w).
Proof.
  assert (Hstep : ∀ w, exited w = None → proc w = p →
            Part000.step w (Part000.Socket (Part000.OnGetEnvInfo cb)) =
              set_trace (trace w ++ logged w "Received getEnvInfo request"
                                 ++ [Ack cb (AckEnvInfo p)]) w
            ∧ MainTs.step w (MainTs.Socket (MainTs.OnGetEnvInfo cb)) =
              set_trace (trace w ++ logged w "Received getEnvInfo request"
                                 ++ [Ack cb (AckEnvInfo p)]) w).
  { intros w Hx Hp. destruct w; simpl in *; subst.
    unfold logged, debug_enabled; simpl.
    destruct (truthy_string (env p !! "CODAPT_DEBUG")) eqn:Hd;
      js_unfold; simpl; rewrite ?Hd; simpl; setters; rewrite <- ?app_assoc; done. }
  split; intros w Hx.
  - apply Hstep; [done|].
    destruct (run_grows (Part000.start p) evs) as [Hp _]. fold w in Hp. rewrite Hp.
    assert (Hm : respects (grows any_effect) Part000.main)
      by (unfold Part000.main; any_effect_walk).
    destruct (Hm (boot p)) as [Hp' _]. exact Hp'.
  - apply Hstep; [done|].
    destruct (run_grows_main (MainTs.start p) evs') as [Hp _]. fold w in Hp. rewrite Hp.
    assert (Hm : respects (grows any_effect) MainTs.main)
      by (unfold MainTs.main; any_effect_walk).
    destruct (Hm (boot p)) as [Hp' _]. exact Hp'.
Qed.

(** A process with the debug toggle, after a connection and a request. *)
Lemma getEnvInfo_answers_with_the_start_snapshot_witness :
  let evs := [Part000.Socket Part000.OnConnect;
              Part000.Socket (Part000.OnStartLoading "Working" None 1)] in
  let w := Part000.run (Part000.start debug_process) evs in
  exited w = None
  ∧ trace (Part000.step w (Part000.Socket (Part000.OnGetEnvInfo 2))) =
      trace w ++ [ConsoleLog "[CODAPT CLIENT DEBUG] Received getEnvInfo request";
                  Ack 2 (AckEnvInfo debug_process)].
Proof.
  intros evs w.
  assert (Hx : exited w = None) by (vm_compute; reflexivity).
  destruct (getEnvInfo_answers_with_the_start_snapshot debug_process 2 evs []) as [H _].
  split; [exact Hx|]. fold w in H. rewrite (H Hx). vm_compute. reflexivity.
Defined.

(** ** Stopping the indicator, and direct output when nothing is loading *)

(** One stop-loading request, in both variants alike. *)
Lemma stopLoading_step (w : World) (cb : nat) :
  exited w = None →
  let stopped :=
    match loadingInterval w with
    | Some h =>
        set_trace (trace w ++ [StdoutWrite clear_sequence])
          (set_loadingInterval None (set_timers (delete h (timers w)) w))
    | None => w
    end in
  let w1 := set_trace (trace stopped ++ logged w "Stopping loading" ++ [Ack cb AckVoid])
              stopped in
  Part000.step w (Part000.Socket (Part000.OnStopLoading cb)) = w1
  ∧ MainTs.step w (MainTs.Socket (MainTs.OnStopLoading cb)) = w1.
Proof.
  destruct w; simpl; intros ->. unfold logged, debug_enabled; simpl.
  destruct (truthy_string (env proc0 !! "CODAPT_DEBUG")) eqn:Hd;
    destruct loadingInterval0 as [h|];
    js_unfold; simpl; rewrite ?Hd; simpl; setters; unfold clear_sequence;
    rewrite <- ?app_assoc; simpl; done.
Qed.

(** X3.  A stop-loading request, in both variants alike: while loading
    it disarms the interval, forgets it and clears the line; while idle it
    touches neither the timers nor the terminal.  Either way it logs (under
    the debug toggle) and acknowledges, and leaves the terminal idle, so
    that a second request right after the first only logs and
    acknowledges. *)
Theorem stopLoading_request (w : World) (cb cb' : nat) :
  exited w = None →
  let w1 := Part000.step w (Part000.Socket (Part000.OnStopLoading cb)) in
  MainTs.step w (MainTs.Socket (MainTs.OnStopLoading cb)) = w1
  ∧ loadingInterval w1 = None
  ∧ timers w1 =
      match loadingInterval w with Some h => delete h (timers w) | None => timers w end
  ∧ trace w1 =
      trace w ++ match loadingInterval w with
                 | Some _ => [StdoutWrite clear_sequence]
                 | None => []
                 end ++ logged w "Stopping loading" ++ [Ack cb AckVoid]
  ∧ Part000.step w1 (Part000.Socket (Part000.OnStopLoading cb')) =
      set_trace (trace w1 ++ logged w "Stopping loading" ++ [Ack cb' AckVoid]) w1
  ∧ MainTs.step w1 (MainTs.Socket (MainTs.OnStopLoading cb')) =
      set_trace (trace w1 ++ logged w "Stopping loading" ++ [Ack cb' AckVoid]) w1.
Proof.
  intros Hx w1.
  destruct (stopLoading_step w cb Hx) as [H1 H1'].
  assert (Hl : loadingInterval w1 = None)
    by (unfold w1; rewrite H1; by destruct (loadingInterval w) eqn:E).
  assert (Hx1 : exited w1 = None)
    by (unfold w1; rewrite H1; by destruct (loadingInterval w) eqn:E).
  assert (Hp : logged w1 "Stopping loading" = logged w "Stopping loading")
    by (unfold w1; rewrite H1; by destruct (loadingInterval w) eqn:E).
  destruct (stopLoading_step w1 cb' Hx1) as [H2 H2'].
  rewrite Hl, Hp in H2, H2'.
  split; [unfold w1; by rewrite H1, H1'|].
  split; [exact Hl|].
  split; [unfold w1; rewrite H1; by destruct (loadingInterval w) eqn:E|].
  split; [|by split].
  unfold w1. rewrite H1.
  destruct (loadingInterval w) eqn:E; simpl; by rewrite <- ?app_assoc.
Qed.

(** The connection spinner of [main], stopped twice. *)
Lemma stopLoading_request_witness :
  let w := Part000.start plain_process in
  let w1 := Part000.step w (Part000.Socket (Part000.OnStopLoading 1)) in
  exited w = None
  ∧ trace w1 = trace w ++ [StdoutWrite clear_sequence; Ack 1 AckVoid]
  ∧ loadingInterval w1 = None
  ∧ trace (Part000.step w1 (Part000.Socket (Part000.OnStopLoading 2))) =
      trace w1 ++ [Ack 2 AckVoid].
Proof.
  intros w w1.
  destruct (stopLoading_request w 1 2 eq_refl) as (_ & Hl & _ & Ht & H2 & _).
  fold w1 in Hl, Ht, H2.
  split; [reflexivity|]. split; [exact Ht|]. split; [exact Hl|].
  rewrite H2. reflexivity.
Defined.

(** X4.  A direct-output request received while nothing is loading
    writes the text as it is, acknowledges, and does nothing else; the two
    variants, which differ while loading, agree here. *)
Theorem direct_output_while_idle (w : World) (text : string) (cb : nat) :
  exited w = None → loadingInterval w = None →
  Part000.step w (Part000.Socket (Part000.OnPrint text cb)) =
    set_trace (trace w ++ [StdoutWrite text; Ack cb AckVoid]) w
  ∧ MainTs.step w (MainTs.Socket (MainTs.OnEmitToStdout text cb)) =
    set_trace (trace w ++ [StdoutWrite text; Ack cb AckVoid]) w.
Proof.
  destruct w; simpl; intros -> ->. js_unfold. simpl. setters.
  rewrite <- !app_assoc. done.
Qed.

(** After the connection is made. *)
Lemma direct_output_while_idle_witness :
  let w := Part000.run (Part000.start plain_process) [Part000.Socket Part000.OnConnect] in
  exited w = None ∧ loadingInterval w = None
  ∧ trace (Part000.step w (Part000.Socket (Part000.OnPrint "" 3))) =
      trace w ++ [StdoutWrite ""; Ack 3 AckVoid].
Proof.
  intros w.
  destruct (direct_output_while_idle w "" 3 eq_refl eq_refl) as [H _].
  split; [reflexivity|]. split; [reflexivity|]. rewrite H. reflexivity.
Defined.

(** ** The frames of the spinner *)

Lemma startLoading_state_main (w : World) (text : string) (t : option Z) (cb : nat) :
  exited w = None →
  let w' := MainTs.step w (MainTs.Socket (MainTs.OnStartLoading text t cb)) in
  let stopped :=
    match loadingInterval w with Some h => delete h (timers w) | None => timers w end in
  let h := next_timer w in
  exited w' = None ∧
  match t with
  | Some ms =>
      timers w' = <[S h := mkTimer (Spinner text 0) 100 true]>
                    (<[h := mkTimer Deadline ms false]> stopped)
      ∧ loadingInterval w' = Some (S h) ∧ next_timer w' = S (S h)
  | None =>
      timers w' = <[h := mkTimer (Spinner text 0) 100 true]> stopped
      ∧ loadingInterval w' = Some h ∧ next_timer w' = S h
  end.
Proof.
  destruct w; simpl; intros ->.
  destruct (truthy_string (env proc0 !! "CODAPT_DEBUG")) eqn:Hd;
    destruct loadingInterval0, t; js_unfold; simpl; rewrite ?Hd; simpl; done.
Qed.

Lemma alter_spinner (timers0 : gmap nat TimerEntry) (h : nat) (cb : Closure)
    (text : string) (j : nat) (d : Z) :
  timers0 !! h = Some (mkTimer cb d true) →
  alter (λ e, mkTimer (Spinner text j) (delay e) (repeat e)) h timers0 =
    <[h := mkTimer (Spinner text j) d true]> timers0.
Proof.
  intros Ht. apply map_eq. intros k. destruct (decide (h = k)) as [<-|Hne].
  - by rewrite lookup_alter_eq, lookup_insert_eq, Ht.
  - by rewrite lookup_alter_ne, lookup_insert_ne.
Qed.

(** One tick of an armed spinner interval. *)
Lemma tick_step (w : World) (h : nat) (text : string) (i : nat) (d : Z) :
  exited w = None → timers w !! h = Some (mkTimer (Spinner text i) d true) →
  let next := mkTimer (Spinner text (S i mod length spinnerChars)) d true in
  let frame := [StdoutWrite clear_sequence; StdoutWrite (spinner_line i text)] in
  (let w' := Part000.step w (Part000.TimerFire h) in
   exited w' = None ∧ timers w' = <[h := next]> (timers w)
   ∧ trace w' = trace w ++ frame ∧ loadingInterval w' = loadingInterval w
   ∧ lastLoadingLineWritten w' = spinner_line i text)
  ∧ (let w' := MainTs.step w (MainTs.TimerFire h) in
     exited w' = None ∧ timers w' = <[h := next]> (timers w)
     ∧ trace w' = trace w ++ frame ∧ loadingInterval w' = loadingInterval w
     ∧ lastLoadingLineWritten w' = lastLoadingLineWritten w).
Proof.
  destruct w; simpl; intros -> Ht.
  js_unfold; simpl; rewrite Ht; simpl.
  rewrite !(alter_spinner _ _ _ _ _ _ Ht).
  unfold clear_sequence. rewrite <- !app_assoc. done.
Qed.

Lemma frames_S (text : string) (m n : nat) :
  frames text m (S n) =
    frames text m n ++ [StdoutWrite clear_sequence;
                        StdoutWrite (spinner_line ((m + n) mod length spinnerChars) text)].
Proof. unfold frames. rewrite seq_S, bind_app. simpl. done. Qed.

Lemma next_glyph (k : nat) :
  S (k mod length spinnerChars) mod length spinnerChars = S k mod length spinnerChars.
Proof.
  change (length spinnerChars) with 4.
  replace (S (k mod 4)) with (k mod 4 + 1) by lia.
  replace (S k) with (k + 1) by lia.
  by rewrite Nat.Div0.add_mod_idemp_l.
Qed.

(** [n] ticks in a row of the interval [h], whose counter stands at [m]
    modulo the number of glyphs. *)
Lemma ticks_part000 (h : nat) (text : string) (d : Z) (n m : nat) (w : World) :
  exited w = None →
  timers w !! h = Some (mkTimer (Spinner text (m mod length spinnerChars)) d true) →
  let wn := Part000.run w (replicate n (Part000.TimerFire h)) in
  exited wn = None
  ∧ timers wn !! h = Some (mkTimer (Spinner text ((m + n) mod length spinnerChars)) d true)
  ∧ trace wn = trace w ++ frames text m n
  ∧ loadingInterval wn = loadingInterval w
  ∧ (0 < n → lastLoadingLineWritten wn =
               spinner_line ((m + n - 1) mod length spinnerChars) text).
Proof.
  intros Hx Ht. induction n as [|n IH].
  - simpl. rewrite Nat.add_0_r. unfold frames. simpl. rewrite app_nil_r.
    split_and!; try done. lia.
  - destruct IH as (Hxn & Htn & Htr & Hl & _).
    rewrite replicate_S_end. unfold Part000.run in *. rewrite foldl_snoc.
    set (wn := foldl Part000.step w (replicate n (Part000.TimerFire h))) in *.
    destruct (tick_step wn h text _ d Hxn Htn) as [(-> & -> & -> & -> & ->) _].
    rewrite lookup_insert_eq, next_glyph, Htr, frames_S, <- app_assoc.
    replace (m + S n) with (S (m + n)) by lia.
    replace (S (m + n) - 1) with (m + n) by lia.
    split_and!; done.
Qed.

Lemma ticks_main (h : nat) (text : string) (d : Z) (n m : nat) (w : World) :
  exited w = None →
  timers w !! h = Some (mkTimer (Spinner text (m mod length spinnerChars)) d true) →
  let wn := MainTs.run w (replicate n (MainTs.TimerFire h)) in
  exited wn = None
  ∧ timers wn !! h = Some (mkTimer (Spinner text ((m + n) mod length spinnerChars)) d true)
  ∧ trace wn = trace w ++ frames text m n
  ∧ loadingInterval wn = loadingInterval w.
Proof.
  intros Hx Ht. induction n as [|n IH].
  - simpl. rewrite Nat.add_0_r. unfold frames. simpl. rewrite app_nil_r. by split_and!.
  - destruct IH as (Hxn & Htn & Htr & Hl).
    rewrite replicate_S_end. unfold MainTs.run in *. rewrite foldl_snoc.
    set (wn := foldl MainTs.step w (replicate n (MainTs.TimerFire h))) in *.
    destruct (tick_step wn h text _ d Hxn Htn) as [_ (-> & -> & -> & -> & _)].
    rewrite lookup_insert_eq, next_glyph, Htr, frames_S, <- app_assoc.
    replace (m + S n) with (S (m + n)) by lia.
    split_and!; done.
Qed.

(** X5.  The animation of a loading session: after [startLoading], the
    ticks of its interval write, one after the other, the clearing sequence
    and then the glyph, a space and the text, the glyphs going round
    [|], [/], [-], [\] from the first: tick number [k] (from 0) draws glyph
    [k mod 4].  The session stays on, and in [part_000] the line of the
    latest tick is the one remembered for redrawing. *)
Theorem spinner_frames (w : World) (text : string) (t : option Z) (cb n : nat) :
  exited w = None →
  let h := match t with Some _ => S (next_timer w) | None => next_timer w end in
  (let w1 := Part000.step w (Part000.Socket (Part000.OnStartLoading text t cb)) in
   let wn := Part000.run w1 (replicate n (Part000.TimerFire h)) in
   trace wn = trace w1 ++ frames text 0 n
   ∧ loadingInterval wn = Some h
   ∧ (0 < n → lastLoadingLineWritten wn =
                spinner_line ((n - 1) mod length spinnerChars) text))
  ∧ (let w1 := MainTs.step w (MainTs.Socket (MainTs.OnStartLoading text t cb)) in
     let wn := MainTs.run w1 (replicate n (MainTs.TimerFire h)) in
     trace wn = trace w1 ++ frames text 0 n ∧ loadingInterval wn = Some h).
Proof.
  intros Hx h. split.
  - intros w1.
    destruct (startLoading_state w text t cb Hx) as [Hx1 Hst]. fold w1 in Hx1, Hst.
    assert (Hh : timers w1 !! h = Some (mkTimer (Spinner text (0 mod length spinnerChars)) 100 true)
                 ∧ loadingInterval w1 = Some h).
    { unfold h. destruct t; destruct Hst as (-> & -> & _);
        split; try done; apply lookup_insert_eq. }
    destruct Hh as [Hh Hl].
    destruct (ticks_part000 h text 100 n 0 w1 Hx1 Hh) as (_ & _ & Htr & Hl' & Hlast).
    split_and!; [done | congruence | exact Hlast].
  - intros w1.
    destruct (startLoading_state_main w text t cb Hx) as [Hx1 Hst]. fold w1 in Hx1, Hst.
    assert (Hh : timers w1 !! h = Some (mkTimer (Spinner text (0 mod length spinnerChars)) 100 true)
                 ∧ loadingInterval w1 = Some h).
    { unfold h. destruct t; destruct Hst as (-> & -> & _);
        split; try done; apply lookup_insert_eq. }
    destruct Hh as [Hh Hl].
    destruct (ticks_main h text 100 n 0 w1 Hx1 Hh) as (_ & _ & Htr & Hl').
    split; [done | congruence].
Qed.

(** Six ticks: the glyphs come round. *)
Lemma spinner_frames_witness :
  let w := boot plain_process in
  let w1 := Part000.step w (Part000.Socket (Part000.OnStartLoading "Working" None 1)) in
  exited w = None
  ∧ trace (Part000.run w1 (replicate 6 (Part000.TimerFire 0))) =
      trace w1 ++ [StdoutWrite clear_sequence; StdoutWrite "| Working";
                   StdoutWrite clear_sequence; StdoutWrite "/ Working";
                   StdoutWrite clear_sequence; StdoutWrite "- Working";
                   StdoutWrite clear_sequence; StdoutWrite "\ Working";
                   StdoutWrite clear_sequence; StdoutWrite "| Working";
                   StdoutWrite clear_sequence; StdoutWrite "/ Working"].
Proof.
  intros w w1.
  destruct (spinner_frames w "Working" None 1 6 eq_refl) as [(Ht & _) _].
  split; [reflexivity|]. exact Ht.
Defined.

(** ** Deadlines *)

(** A deadline that fires: it is disarmed, and [stopLoading] runs. *)
Lemma deadline_step (w : World) (h : nat) (ms : Z) :
  exited w = None → timers w !! h = Some (mkTimer Deadline ms false) →
  let disarmed := delete h (timers w) in
  let after :=
    match loadingInterval w with
    | Some h' =>
        set_trace (trace w ++ [StdoutWrite clear_sequence])
          (set_loadingInterval None (set_timers (delete h' disarmed) w))
    | None => set_timers disarmed w
    end in
  Part000.step w (Part000.TimerFire h) = after
  ∧ MainTs.step w (MainTs.TimerFire h) = after.
Proof.
  destruct w; simpl; intros -> Ht.
  js_unfold; simpl; rewrite Ht; simpl.
  destruct loadingInterval0; simpl; setters; unfold clear_sequence; done.
Qed.

(** X6.  A loading session started with a deadline ends by itself: when
    the timer of the deadline fires, the interval of the session is
    disarmed and forgotten and the line is cleared, without any request;
    the timers are back to what they were before the session (less the
    interval of the session before it, if any), so that nothing is drawn
    any more.  The world before is any world whose timers are in order, as
    they are in every reachable one. *)
Theorem deadline_ends_the_session (w : World) (text : string) (ms : Z) (cb : nat) :
  exited w = None → timers_ok w →
  let before :=
    match loadingInterval w with Some h => delete h (timers w) | None => timers w end in
  (let w1 := Part000.step w (Part000.Socket (Part000.OnStartLoading text (Some ms) cb)) in
   let w2 := Part000.step w1 (Part000.TimerFire (next_timer w)) in
   loadingInterval w2 = None ∧ timers w2 = before
   ∧ trace w2 = trace w1 ++ [StdoutWrite clear_sequence]
   ∧ Part000.step w2 (Part000.TimerFire (S (next_timer w))) = w2)
  ∧ (let w1 := MainTs.step w (MainTs.Socket (MainTs.OnStartLoading text (Some ms) cb)) in
     let w2 := MainTs.step w1 (MainTs.TimerFire (next_timer w)) in
     loadingInterval w2 = None ∧ timers w2 = before
     ∧ trace w2 = trace w1 ++ [StdoutWrite clear_sequence]
     ∧ MainTs.step w2 (MainTs.TimerFire (S (next_timer w))) = w2).
Proof.
  intros Hx [Hf _] before.
  assert (Hfresh : ∀ k, next_timer w ≤ k → before !! k = None).
  { intros k Hk. destruct (before !! k) as [e|] eqn:E; [|done].
    assert (timers w !! k = Some e) as E'.
    { unfold before in E. destruct (loadingInterval w); [|done].
      by apply lookup_delete_Some in E as [_ E]. }
    apply Hf in E'. lia. }
  assert (Hback : ∀ sp dl,
            delete (S (next_timer w))
              (delete (next_timer w)
                 (<[S (next_timer w) := sp]> (<[next_timer w := dl]> before))) = before).
  { intros sp dl. apply map_eq. intros k.
    destruct (decide (k = S (next_timer w))) as [->|H1].
    { rewrite lookup_delete_eq. symmetry. apply Hfresh. lia. }
    rewrite lookup_delete_ne by done.
    destruct (decide (k = next_timer w)) as [->|H2].
    { rewrite lookup_delete_eq. symmetry. apply Hfresh. lia. }
    rewrite lookup_delete_ne by done.
    by rewrite !lookup_insert_ne by done. }
  split.
  - intros w1 w2.
    destruct (startLoading_state w text (Some ms) cb Hx) as (Hx1 & Ht1 & Hl1 & _).
    fold w1 in Hx1, Ht1, Hl1. fold before in Ht1.
    assert (Hd : timers w1 !! next_timer w = Some (mkTimer Deadline ms false)).
    { rewrite Ht1, lookup_insert_ne by lia. apply lookup_insert_eq. }
    destruct (deadline_step w1 (next_timer w) ms Hx1 Hd) as [E _].
    fold w2 in E. rewrite Hl1, Ht1, Hback in E.
    assert (Hgone : timers w2 !! S (next_timer w) = None)
      by (rewrite E; simpl; apply Hfresh; lia).
    assert (Hx2 : exited w2 = None) by (by rewrite E).
    split_and!; try (by rewrite E).
    revert Hgone Hx2. generalize w2. intros w' Hgone Hx2. destruct w'; simpl in *; subst.
    js_unfold; simpl. by rewrite Hgone.
  - intros w1 w2.
    destruct (startLoading_state_main w text (Some ms) cb Hx) as (Hx1 & Ht1 & Hl1 & _).
    fold w1 in Hx1, Ht1, Hl1. fold before in Ht1.
    assert (Hd : timers w1 !! next_timer w = Some (mkTimer Deadline ms false)).
    { rewrite Ht1, lookup_insert_ne by lia. apply lookup_insert_eq. }
    destruct (deadline_step w1 (next_timer w) ms Hx1 Hd) as [_ E].
    fold w2 in E. rewrite Hl1, Ht1, Hback in E.
    assert (Hgone : timers w2 !! S (next_timer w) = None)
      by (rewrite E; simpl; apply Hfresh; lia).
    assert (Hx2 : exited w2 = None) by (by rewrite E).
    split_and!; try (by rewrite E).
    revert Hgone Hx2. generalize w2. intros w' Hgone Hx2. destruct w'; simpl in *; subst.
    js_unfold; simpl. by rewrite Hgone.
Qed.

(** A session of 100 ms in a process that has just started. *)
Lemma deadline_ends_the_session_witness :
  let w := boot plain_process in
  let w1 := Part000.step w (Part000.Socket (Part000.OnStartLoading "X" (Some 100%Z) 1)) in
  let w2 := Part000.step w1 (Part000.TimerFire 0) in
  exited w = None ∧ timers_ok w
  ∧ loadingInterval w1 = Some 1 ∧ loadingInterval w2 = None ∧ timers w2 = ∅.
Proof.
  intros w w1 w2.
  destruct (deadline_ends_the_session w "X" 100 1 eq_refl (boot_timers_ok plain_process))
    as [(Hl & Ht & _) _].
  split; [reflexivity|]. split; [apply boot_timers_ok|].
  split; [reflexivity|]. split; [exact Hl | exact Ht].
Defined.

(** X7.  A deadline that fires when nothing is loading (its session was
    stopped before, by a request or by the connection) is disarmed and does
    nothing else: nothing is written, in either variant. *)
Theorem deadline_after_its_session (w : World) (h : nat) (ms : Z) :
  exited w = None → loadingInterval w = None →
  timers w !! h = Some (mkTimer Deadline ms false) →
  Part000.step w (Part000.TimerFire h) = set_timers (delete h (timers w)) w
  ∧ MainTs.step w (MainTs.TimerFire h) = set_timers (delete h (timers w)) w.
Proof.
  intros Hx Hl Ht. destruct (deadline_step w h ms Hx Ht) as [H1 H2].
  rewrite Hl in H1, H2. by split.
Qed.

(** The deadline of 5 s that [main] arms, firing after the connection. *)
Lemma deadline_after_its_session_witness :
  let w := Part000.run (Part000.start plain_process) [Part000.Socket Part000.OnConnect] in
  exited w = None ∧ loadingInterval w = None
  ∧ timers w !! 0 = Some (mkTimer Deadline 5000 false)
  ∧ trace (Part000.step w (Part000.TimerFire 0)) = trace w
  ∧ timers (Part000.step w (Part000.TimerFire 0)) !! 0 = None.
Proof.
  intros w.
  destruct (deadline_after_its_session w 0 5000 eq_refl eq_refl eq_refl) as [H _].
  do 3 (split; [reflexivity|]). rewrite H. split; [vm_compute; reflexivity | apply lookup_delete_eq].
Defined.

(** X8.  In every world that either variant can reach, the repeating
    timers are the spinner intervals, and there is at most one: every armed
    repeating timer is the one remembered in [loadingInterval], and when
    [loadingInterval] is [null] none is armed; the interval remembered is
    armed. *)
Theorem spinner_interval_is_unique (p : EnvInfo)
    (evs : list Part000.Event) (evs' : list MainTs.Event) :
  (let w := Part000.run (Part000.start p) evs in
   (∀ h e, timers w !! h = Some e → repeat e = true → loadingInterval w = Some h)
   ∧ (∀ h, loadingInterval w = Some h →
           ∃ e, timers w !! h = Some e ∧ repeat e = true ∧ is_spinner e = true))
  ∧ (let w := MainTs.run (MainTs.start p) evs' in
     (∀ h e, timers w !! h = Some e → repeat e = true → loadingInterval w = Some h)
     ∧ (∀ h, loadingInterval w = Some h →
             ∃ e, timers w !! h = Some e ∧ repeat e = true ∧ is_spinner e = true)).
Proof.
  assert (H : ∀ w, timers_ok w →
            (∀ h e, timers w !! h = Some e → repeat e = true → loadingInterval w = Some h)
            ∧ (∀ h, loadingInterval w = Some h →
                    ∃ e, timers w !! h = Some e ∧ repeat e = true ∧ is_spinner e = true)).
  { intros w [Hf Hs]. split.
    - intros h e He Hr. apply Hs. exists e. split; [done|].
      destruct (Hf h e He) as [_ E]. congruence.
    - intros h Hl. apply Hs in Hl as (e & He & Hsp). exists e.
      destruct (Hf h e He) as [_ E]. split_and!; congruence. }
  split; intros w; apply H; [apply reachable_timers_ok | apply reachable_timers_ok_main].
Qed.

(** Two sessions, a tick and a stale deadline in [part_000]. *)
Lemma spinner_interval_is_unique_witness :
  let evs := [Part000.Socket (Part000.OnStartLoading "A" (Some 50%Z) 1); Part000.TimerFire 3;
              Part000.Socket (Part000.OnStartLoading "B" None 2)] in
  let w := Part000.run (Part000.start plain_process) evs in
  timers w !! 4 = Some (mkTimer (Spinner "B" 0) 100 true)
  ∧ loadingInterval w = Some 4.
Proof.
  intros evs w.
  destruct (spinner_interval_is_unique plain_process evs []) as [[H _] _].
  split; [reflexivity|]. apply (H 4 _ eq_refl eq_refl).
Defined.

(** ** Start-up and connection *)

(** X9.  What the program does before it serves events.  It connects to
    the endpoint of [CODAPT_SERVER] when that variable is set and not
    empty, and to the hosted default otherwise.  [part_000] connects with
    a timeout of 5000 ms and shows the spinner "Connecting to server..."
    meanwhile, with a deadline of 5000 ms (handles 1 and 0), logging the
    start of it under the debug toggle; [main.ts] connects without timeout
    and arms nothing. *)
Theorem start_connects (p : EnvInfo) :
  trace (Part000.start p) =
    logged (boot p) "Starting loading: Connecting to server... with timeoutMs=5000"
      ++ [Connect (endpoint p) (Some 5000%Z)]
  ∧ loadingInterval (Part000.start p) = Some 1
  ∧ timers (Part000.start p) =
      <[1 := mkTimer (Spinner "Connecting to server..." 0) 100 true]>
        (<[0 := mkTimer Deadline 5000 false]> ∅)
  ∧ trace (MainTs.start p) = [Connect (endpoint p) None]
  ∧ loadingInterval (MainTs.start p) = None
  ∧ timers (MainTs.start p) = ∅
  ∧ exited (Part000.start p) = None ∧ exited (MainTs.start p) = None.
Proof.
  destruct p as [a e c i]. unfold Part000.start, MainTs.start, Part000.main, MainTs.main,
    boot, logged, debug_enabled, endpoint. simpl.
  assert (Hs : (if truthy_string (e !! "CODAPT_SERVER")
                then default "" (e !! "CODAPT_SERVER") else Part000.DEFAULT_SERVER) =
               match e !! "CODAPT_SERVER" with
               | Some s => if decide (s = "") then Part000.DEFAULT_SERVER else s
               | None => Part000.DEFAULT_SERVER
               end).
  { destruct (e !! "CODAPT_SERVER") as [s|]; simpl; [|done]. by destruct (decide (s = "")). }
  destruct (truthy_string (e !! "CODAPT_DEBUG")) eqn:Hd;
    js_unfold; simpl; rewrite ?Hd; simpl;
    change MainTs.DEFAULT_SERVER with Part000.DEFAULT_SERVER; rewrite Hs; done.
Qed.

(** A process started with an endpoint of its own, in [main.ts]. *)
Lemma start_connects_witness :
  trace (MainTs.start staging_process) = [Connect "http://localhost:3000/" None].
Proof.
  destruct (start_connects staging_process) as (_ & _ & _ & H & _).
  rewrite H. vm_compute. reflexivity.
Defined.

(** X10.  The [connect] event.  In [part_000] it stops the indicator
    (the interval, if one is armed, is disarmed and forgotten and the line
    cleared) and then logs; in [main.ts] it only logs, and a loading
    session goes on across it. *)
Theorem connect_stops_the_indicator (w : World) :
  exited w = None →
  let stopped :=
    match loadingInterval w with
    | Some h =>
        set_trace (trace w ++ [StdoutWrite clear_sequence])
          (set_loadingInterval None (set_timers (delete h (timers w)) w))
    | None => w
    end in
  Part000.step w (Part000.Socket Part000.OnConnect) =
    set_trace (trace stopped ++ logged w "Connected to server") stopped
  ∧ MainTs.step w (MainTs.Socket MainTs.OnConnect) =
    set_trace (trace w ++ logged w "Connected to server, sending start event") w.
Proof.
  destruct w; simpl; intros ->. unfold logged, debug_enabled; simpl.
  destruct (truthy_string (env proc0 !! "CODAPT_DEBUG")) eqn:Hd;
    destruct loadingInterval0 as [h|];
    js_unfold; simpl; rewrite ?Hd; simpl; setters; unfold clear_sequence;
    rewrite <- ?app_assoc, ?app_nil_r; simpl; done.
Qed.

(** The connection of a process of [part_000] that has just started. *)
Lemma connect_stops_the_indicator_witness :
  let w := Part000.start debug_process in
  let w1 := Part000.step w (Part000.Socket Part000.OnConnect) in
  exited w = None
  ∧ loadingInterval w1 = None ∧ timers w1 !! 1 = None
  ∧ trace w1 = trace w ++ [StdoutWrite clear_sequence;
                           ConsoleLog "[CODAPT CLIENT DEBUG] Connected to server"].
Proof.
  intros w w1.
  assert (Hx : exited w = None) by (vm_compute; reflexivity).
  destruct (connect_stops_the_indicator w Hx) as [H _].
  split; [exact Hx|]. unfold w1. rewrite H.
  vm_compute. repeat split; reflexivity.
Defined.

(** ** The line that direct output draws again *)

Lemma print_step_loading (w : World) (text : string) (cb h : nat) :
  exited w = None → loadingInterval w = Some h →
  trace (Part000.step w (Part000.Socket (Part000.OnPrint text cb))) =
    trace w ++ [StdoutWrite clear_sequence; StdoutWrite text;
                StdoutWrite (lastLoadingLineWritten w); Ack cb AckVoid].
Proof.
  destruct w; simpl; intros -> ->. js_unfold. simpl.
  unfold clear_sequence. by rewrite <- !app_assoc.
Qed.

Lemma startLoading_keeps_last_line (w : World) (text : string) (t : option Z) (cb : nat) :
  exited w = None →
  lastLoadingLineWritten (Part000.step w (Part000.Socket (Part000.OnStartLoading text t cb))) =
    lastLoadingLineWritten w.
Proof.
  destruct w; simpl; intros ->.
  destruct (truthy_string (env proc0 !! "CODAPT_DEBUG")) eqn:Hd;
    destruct loadingInterval0, t; js_unfold; simpl; rewrite ?Hd; simpl; done.
Qed.

(** X11.  In [part_000] the line that a direct output draws again is the
    line of the latest tick, of whatever session: [startLoading] does not
    reset it.  So a direct output that comes after [startLoading] and
    before the first tick of the new session draws the last line of the
    session before (with its text), or nothing in a process that never
    ticked; after the first tick it draws the line of the new session. *)
Theorem direct_output_before_the_first_tick (w : World) (text text' : string)
    (t : option Z) (cb cb' : nat) :
  exited w = None →
  let h := match t with Some _ => S (next_timer w) | None => next_timer w end in
  let w1 := Part000.step w (Part000.Socket (Part000.OnStartLoading text t cb)) in
  let w2 := Part000.step w1 (Part000.TimerFire h) in
  trace (Part000.step w1 (Part000.Socket (Part000.OnPrint text' cb'))) =
    trace w1 ++ [StdoutWrite clear_sequence; StdoutWrite text';
                 StdoutWrite (lastLoadingLineWritten w); Ack cb' AckVoid]
  ∧ trace (Part000.step w2 (Part000.Socket (Part000.OnPrint text' cb'))) =
    trace w2 ++ [StdoutWrite clear_sequence; StdoutWrite text';
                 StdoutWrite (spinner_line 0 text); Ack cb' AckVoid].
Proof.
  intros Hx h w1 w2.
  destruct (startLoading_state w text t cb Hx) as [Hx1 Hst]. fold w1 in Hx1, Hst.
  assert (Hh : timers w1 !! h = Some (mkTimer (Spinner text 0) 100 true)
               ∧ loadingInterval w1 = Some h).
  { unfold h. destruct t; destruct Hst as (-> & -> & _);
      split; try done; apply lookup_insert_eq. }
  destruct Hh as [Hh Hl]. split.
  - rewrite (print_step_loading w1 text' cb' h Hx1 Hl).
    unfold w1. by rewrite startLoading_keeps_last_line.
  - destruct (tick_step w1 h text 0 100 Hx1 Hh) as [(Hx2 & _ & _ & Hl2 & Hlast) _].
    fold w2 in Hx2, Hl2, Hlast. rewrite Hl in Hl2.
    rewrite (print_step_loading w2 text' cb' h Hx2 Hl2). by rewrite Hlast.
Qed.

(** A session "lint" that ticked once, then a session "test". *)
Lemma direct_output_before_the_first_tick_witness :
  let w := Part000.run (boot plain_process)
             [Part000.Socket (Part000.OnStartLoading "lint" None 1); Part000.TimerFire 0] in
  let w1 := Part000.step w (Part000.Socket (Part000.OnStartLoading "test" None 2)) in
  exited w = None
  ∧ trace (Part000.step w1 (Part000.Socket (Part000.OnPrint "ok" 3))) =
      trace w1 ++ [StdoutWrite clear_sequence; StdoutWrite "ok";
                   StdoutWrite "| lint"; Ack 3 AckVoid].
Proof.
  intros w w1.
  destruct (direct_output_before_the_first_tick w "test" "ok" None 2 3 eq_refl) as [H _].
  split; [reflexivity|]. exact H.
Defined.

(** ** One acknowledgment per execution request *)

Lemma acks_app (l k : list Effect) : acks (l ++ k) = acks l ++ acks k.
Proof. unfold acks. apply bind_app. Qed.

Lemma acks_logged (w : World) (message : string) : acks (logged w message) = [].
Proof. unfold logged. by destruct (debug_enabled w). Qed.

(** Once the promise of child [c] is settled, the events of [c] change
    nothing. *)
Lemma run_settled (w : World) (c : nat) (child : Child) (evs : list Part000.Event) :
  children w !! c = Some child → promise child ≠ Pending →
  Forall (λ ev, about c ev = true) evs → Part000.run w evs = w.
Proof.
  intros Hc Hp Hq. induction Hq as [|ev l Hev _ IH]; [done|].
  unfold Part000.run in *. simpl.
  destruct (settled_is_final w c child Hc Hp) as [He Hm].
  destruct ev as [e | h | chunk | c' error out err | c' message]; try discriminate Hev;
    simpl in Hev; apply bool_decide_eq_true in Hev; subst c'.
  - by rewrite He.
  - by rewrite Hm.
Qed.

(** X12.  An execution request is acknowledged once, with what the first
    event of its child brings: the response of the callback of [exec], or
    the failure of the ['error'] event, whichever comes first; whatever the
    child sends after that, in whatever order, changes nothing. *)
Theorem one_acknowledgment_per_request (w : World) (payload : Part000.CommandPayload)
    (cb : nat) (cs : bool) (evs rest : list Part000.Event) (first : Part000.Event)
    (v : AckValue) :
  exited w = None → Part000.stdin payload = None ∨ cs = true →
  Forall (λ ev, elsewhere (next_child w) ev = true) evs →
  about (next_child w) first = true → outcome first = Some v →
  Forall (λ ev, about (next_child w) ev = true) rest →
  let w1 := Part000.run
              (Part000.step w (Part000.Socket (Part000.OnRunCommand payload cb cs))) evs in
  acks (trace (Part000.step w1 first)) = acks (trace w1) ++ [(cb, v)]
  ∧ Part000.run w1 (first :: rest) = Part000.step w1 first.
Proof.
  intros Hx Hs Hq Hf Hv Hr w1.
  destruct (runCommand_waits w payload cb cs evs Hx Hs Hq) as (Hx1 & Hp1 & Hc1).
  fold w1 in Hx1, Hp1, Hc1.
  destruct first as [e | h | chunk | c' error out err | c' message]; try discriminate Hf;
    simpl in Hf; apply bool_decide_eq_true in Hf; subst c'; simpl in Hv;
    injection Hv as <-.
  - pose proof (exec_callback_resolves w1 _ cb _ true error out err Hx1 Hc1) as E.
    split.
    + rewrite E. simpl. rewrite !acks_app, acks_logged. done.
    + assert (Hc2 : children (Part000.step w1 (Part000.ExecCallback (next_child w) error out err))
                      !! next_child w =
                    Some (mkChild (Resolved (response_of error out err)) true
                            (Some (Part000.command payload, cb))))
        by (rewrite E; simpl; apply lookup_insert_eq).
      exact (run_settled _ _ _ rest Hc2 ltac:(done) Hr).
  - pose proof (child_error_rejects w1 _ cb _ message Hx1 Hc1) as E.
    split.
    + rewrite E. simpl. rewrite !acks_app, acks_logged. done.
    + assert (Hc2 : children (Part000.step w1 (Part000.ChildError (next_child w) message))
                      !! next_child w =
                    Some (mkChild (Rejected (RejectedWith (mkResponse (-1) "" message))) true
                            (Some (Part000.command payload, cb))))
        by (rewrite E; simpl; apply lookup_insert_eq).
      exact (run_settled _ _ _ rest Hc2 ltac:(done) Hr).
Qed.

(** The callback of [exec] comes first, with an error, and the ['error']
    event after it: the request is acknowledged with the response of the
    callback, and the ['error'] event is lost. *)
Lemma one_acknowledgment_per_request_witness :
  let w := Part000.start plain_process in
  let payload := Part000.mkPayload "nosuch" None None in
  let w1 := Part000.run
              (Part000.step w (Part000.Socket (Part000.OnRunCommand payload 7 true))) [] in
  let first := Part000.ExecCallback 0 (Some (mkExecException (Some 127%Z) false None))
                 "" "sh: nosuch: not found" in
  let rest := [Part000.ChildError 0 "late"; Part000.ExecCallback 0 None "" ""] in
  exited w = None
  ∧ acks (trace (Part000.run w1 (first :: rest))) =
      acks (trace w1) ++ [(7, AckResponse (mkResponse 127 "" "sh: nosuch: not found"))].
Proof.
  intros w payload w1 first rest.
  destruct (one_acknowledgment_per_request w payload 7 true [] rest first _ eq_refl
              (or_introl eq_refl) (Forall_nil_2 _) eq_refl eq_refl
              ltac:(repeat constructor)) as [Ha Hr].
  split; [reflexivity|]. fold w1 in Ha, Hr. rewrite Hr. exact Ha.
Defined.

(** X13.  Execution requests do not wait for one another: of two
    requests made one after the other, the one whose child finishes first
    is acknowledged first, each with the response of its own child. *)
Theorem requests_complete_in_any_order (w : World)
    (pA pB : Part000.CommandPayload) (cbA cbB : nat) (csA csB : bool)
    (eA eB : option ExecException) (oA sA oB sB : string) :
  exited w = None →
  Part000.stdin pA = None ∨ csA = true → Part000.stdin pB = None ∨ csB = true →
  let c := next_child w in
  let w2 := Part000.run w [Part000.Socket (Part000.OnRunCommand pA cbA csA);
                           Part000.Socket (Part000.OnRunCommand pB cbB csB)] in
  let w4 := Part000.run w2 [Part000.ExecCallback (S c) eB oB sB;
                            Part000.ExecCallback c eA oA sA] in
  trace w4 = trace w2
               ++ logged w ("Command succeeded: " +:+ Part000.command pB)
               ++ [Ack cbB (AckResponse (response_of eB oB sB))]
               ++ logged w ("Command succeeded: " +:+ Part000.command pA)
               ++ [Ack cbA (AckResponse (response_of eA oA sA))].
Proof.
  intros Hx HA HB c w2 w4.
  set (wA := Part000.step w (Part000.Socket (Part000.OnRunCommand pA cbA csA))).
  assert (EA : wA = _) by exact (runCommand_request w pA cbA csA Hx HA).
  assert (HxA : exited wA = None) by (by rewrite EA).
  assert (HnA : next_child wA = S c) by (by rewrite EA).
  assert (HpA : logged wA ("Command succeeded: " +:+ Part000.command pB) =
                logged w ("Command succeeded: " +:+ Part000.command pB))
    by (by rewrite EA).
  destruct (request_resolves wA pB cbB csB [] eB oB sB HxA HB (Forall_nil_2 _))
    as [HtB _].
  rewrite HnA, HpA in HtB.
  assert (Hq : Forall (λ ev, elsewhere c ev = true)
                 [Part000.Socket (Part000.OnRunCommand pB cbB csB);
                  Part000.ExecCallback (S c) eB oB sB]).
  { repeat constructor. simpl. apply bool_decide_eq_true. lia. }
  destruct (request_resolves w pA cbA csA _ eA oA sA Hx HA Hq) as [HtA _].
  unfold w4, w2, Part000.run. simpl. unfold Part000.run in HtA, HtB. simpl in HtA, HtB.
  fold wA in HtA. fold wA. subst c. rewrite HtA, HtB. by rewrite <- !app_assoc.
Qed.

(** A long build, then a short listing that finishes first. *)
Lemma requests_complete_in_any_order_witness :
  let w := Part000.start plain_process in
  let pA := Part000.mkPayload "make" None None in
  let pB := Part000.mkPayload "ls" None None in
  let w2 := Part000.run w [Part000.Socket (Part000.OnRunCommand pA 1 true);
                           Part000.Socket (Part000.OnRunCommand pB 2 true)] in
  exited w = None
  ∧ trace (Part000.run w2 [Part000.ExecCallback 1 None "a.txt" "";
                           Part000.ExecCallback 0 None "built" ""]) =
      trace w2 ++ [Ack 2 (AckResponse (mkResponse 0 "a.txt" ""));
                   Ack 1 (AckResponse (mkResponse 0 "built" ""))].
Proof.
  intros w pA pB w2.
  pose proof (requests_complete_in_any_order w pA pB 1 2 true true None None
                "built" "" "a.txt" "" eq_refl (or_introl eq_refl) (or_introl eq_refl)) as H.
  split; [reflexivity|]. exact H.
Defined.

(** X14.  A request with input whose child comes without a stdin
    stream: nothing is written to the child, the request is acknowledged at
    once, on the failure path, with the error "unexpected: child.stdin is
    null" (not with a response), and nothing that the child sends later,
    its ['error'] event and the callback of [exec] included, is
    acknowledged. *)
Theorem request_without_child_stdin (w : World) (payload : Part000.CommandPayload)
    (cb : nat) (s : string) :
  exited w = None → Part000.stdin payload = Some s →
  let c := next_child w in
  let w1 := Part000.step w (Part000.Socket (Part000.OnRunCommand payload cb false)) in
  trace w1 = trace w ++ logged w ("Received command: " +:+ Part000.command payload)
               ++ [Exec c (Part000.command payload) (Part000.timeoutMs payload)]
               ++ logged w ("Command failed: " +:+ Part000.command payload)
               ++ [Ack cb (AckError "unexpected: child.stdin is null")]
  ∧ exited w1 = None
  ∧ ∀ evs, Forall (λ ev, about c ev = true) evs → Part000.run w1 evs = w1.
Proof.
  intros Hx Hs c w1.
  pose proof (runCommand_throws w payload cb s Hx Hs) as E. fold w1 in E.
  split_and!; try (by rewrite E).
  intros evs Hq.
  assert (Hc1 : children w1 !! c =
                Some (mkChild (Rejected (Thrown "unexpected: child.stdin is null")) false
                        (Some (Part000.command payload, cb))))
    by (rewrite E; simpl; apply lookup_insert_eq).
  exact (run_settled _ _ _ evs Hc1 ltac:(done) Hq).
Qed.

(** The child of a spawn that failed for lack of descriptors. *)
Lemma request_without_child_stdin_witness :
  let w := Part000.start plain_process in
  let payload := Part000.mkPayload "cat" (Some "hello") None in
  let w1 := Part000.step w (Part000.Socket (Part000.OnRunCommand payload 5 false)) in
  exited w = None
  ∧ trace (Part000.run w1 [Part000.ChildError 0 "spawn EMFILE"]) =
      trace w ++ [Exec 0 "cat" None; Ack 5 (AckError "unexpected: child.stdin is null")].
Proof.
  intros w payload w1.
  destruct (request_without_child_stdin w payload 5 "hello" eq_refl eq_refl)
    as (Ht & _ & Hr).
  split; [reflexivity|]. fold w1 in Ht, Hr.
  rewrite (Hr [Part000.ChildError 0 "spawn EMFILE"]) by (repeat constructor).
  exact Ht.
Defined.

(** X15.  The exit code that a request is acknowledged with when the
    callback of [exec] comes: 0 exactly when [exec] reports no error; the
    status of the error when it has one that is not 0; and -1 when the
    error has no status or the status 0.  The two outputs are passed on as
    they are. *)
Theorem exit_code_of_the_response (w : World) (payload : Part000.CommandPayload)
    (cb : nat) (cs : bool) (evs : list Part000.Event)
    (error : option ExecException) (out err : string) :
  exited w = None → Part000.stdin payload = None ∨ cs = true →
  Forall (λ ev, elsewhere (next_child w) ev = true) evs →
  let w1 := Part000.run
              (Part000.step w (Part000.Socket (Part000.OnRunCommand payload cb cs))) evs in
  ∃ r, acks (trace (Part000.step w1 (Part000.ExecCallback (next_child w) error out err))) =
         acks (trace w1) ++ [(cb, AckResponse r)]
       ∧ stdout r = out ∧ stderr r = err
       ∧ (exitCode r = 0%Z ↔ error = None)
       ∧ (∀ e, error = Some e →
            match code e with
            | Some n => if decide (n = 0%Z) then exitCode r = (-1)%Z else exitCode r = n
            | None => exitCode r = (-1)%Z
            end).
Proof.
  intros Hx Hs Hq w1. exists (response_of error out err).
  destruct (request_resolves w payload cb cs evs error out err Hx Hs Hq) as [Ht _].
  fold w1 in Ht. rewrite Ht, !acks_app, acks_logged. simpl.
  split; [done|].
  destruct error as [[[n|] k sg]|]; simpl; unfold code_or_minus_one; simpl.
  - destruct (decide (n = 0%Z)) as [->|Hn]; simpl.
    + split_and!; try done. intros e [= <-]. simpl. by destruct (decide (0 = 0)%Z).
    + split_and!; try done. intros e [= <-]. simpl. by destruct (decide (n = 0)%Z).
  - split_and!; try done. by intros e [= <-].
  - split_and!; done.
Qed.

(** An error that carries the status 0. *)
Lemma exit_code_of_the_response_witness :
  let w := Part000.start plain_process in
  let payload := Part000.mkPayload "true" None None in
  let w1 := Part000.run
              (Part000.step w (Part000.Socket (Part000.OnRunCommand payload 3 true))) [] in
  let error := Some (mkExecException (Some 0%Z) false None) in
  exited w = None
  ∧ ∃ r, acks (trace (Part000.step w1 (Part000.ExecCallback 0 error "" ""))) =
           acks (trace w1) ++ [(3, AckResponse r)] ∧ exitCode r = (-1)%Z.
Proof.
  intros w payload w1 error.
  destruct (exit_code_of_the_response w payload 3 true [] error "" "" eq_refl
              (or_introl eq_refl) (Forall_nil_2 _)) as (r & Ha & _ & _ & _ & Hc).
  split; [reflexivity|]. exists r. split; [exact Ha|]. exact (Hc _ eq_refl).
Defined.

(** ** Execution requests in [main.ts] *)

(** The events of a child are handled by the same code in both variants. *)
Lemma child_events_alike (w : World) (c : nat) :
  (∀ error out err, MainTs.step w (MainTs.ExecCallback c error out err) =
                    Part000.step w (Part000.ExecCallback c error out err))
  ∧ (∀ message, MainTs.step w (MainTs.ChildError c message) =
                Part000.step w (Part000.ChildError c message)).
Proof. split; reflexivity. Qed.

Lemma runCommand_undisturbed_main c payload cb :
  respects (undisturbed c) (MainTs.on_runCommand payload cb).
Proof.
  intros w. destruct w, payload as [cmd t].
  destruct (truthy_string (env proc0 !! "CODAPT_DEBUG")) eqn:Hd;
    js_unfold; simpl; rewrite ?Hd; simpl;
    rewrite ?lookup_insert_eq; simpl;
    rewrite ?alter_insert_eq, ?insert_insert_eq; simpl;
    rewrite ?lookup_insert_eq; simpl; rewrite ?Hd; simpl;
    unfold undisturbed; setters;
    (split_and!; [done | done | intros Hlt; split; [lia|];
                                 rewrite ?lookup_insert_ne by lia; done]).
Qed.

Lemma dispatch_undisturbed_main (c : nat) (ev : MainTs.Event) :
  elsewhere_main c ev = true → respects (undisturbed c) (MainTs.dispatch ev).
Proof.
  intros Hq. destruct ev as [e | h | chunk | c' error out err | c' message];
    simpl in Hq; try apply bool_decide_eq_true in Hq.
  - destruct e; try discriminate Hq;
      lazymatch goal with
      | |- respects _ (MainTs.dispatch (MainTs.Socket (MainTs.OnRunCommand ?p ?k))) =>
          exact (runCommand_undisturbed_main c p k)
      | _ => respects_walk ltac:(on_debugLog debugLog_undisturbed) undisturbed_leaf
      end.
  - respects_walk ltac:(on_debugLog debugLog_undisturbed) undisturbed_leaf.
  - respects_walk ltac:(on_debugLog debugLog_undisturbed) undisturbed_leaf.
  - respects_walk ltac:(on_debugLog debugLog_undisturbed) undisturbed_leaf.
  - respects_walk ltac:(on_debugLog debugLog_undisturbed) undisturbed_leaf.
Qed.

Lemma run_undisturbed_main (c : nat) (w : World) (evs : list MainTs.Event) :
  Forall (λ ev, elsewhere_main c ev = true) evs → undisturbed c w (MainTs.run w evs).
Proof.
  intros Hq. revert w. induction Hq as [|ev l Hev _ IH]; intros w.
  - reflexivity.
  - unfold MainTs.run. simpl. etrans; [|apply IH].
    unfold MainTs.step. destruct (exited w); [reflexivity|].
    apply respects_exec_M, dispatch_undisturbed_main, Hev.
Qed.

Lemma run_settled_main (w : World) (c : nat) (child : Child) (evs : list MainTs.Event) :
  children w !! c = Some child → promise child ≠ Pending →
  Forall (λ ev, about_main c ev = true) evs → MainTs.run w evs = w.
Proof.
  intros Hc Hp Hq. induction Hq as [|ev l Hev _ IH]; [done|].
  unfold MainTs.run in *. simpl.
  destruct (settled_is_final w c child Hc Hp) as [He Hm].
  destruct (child_events_alike w c) as [Ae Am].
  destruct ev as [e | h | chunk | c' error out err | c' message]; try discriminate Hev;
    simpl in Hev; apply bool_decide_eq_true in Hev; subst c'.
  - by rewrite Ae, He.
  - by rewrite Am, Hm.
Qed.

(** X16.  Execution requests in [main.ts], where the payload is the
    command and the deadline alone: [exec] is called with both, and the
    request is acknowledged once, with what the first event of its child
    brings (the response of the callback of [exec], or exit code -1, no
    stdout and the message of the ['error'] event as stderr), whatever other
    events come in between and whatever the child sends afterwards. *)
Theorem main_ts_request_is_acknowledged (w : World) (payload : MainTs.CommandPayload)
    (cb : nat) (evs rest : list MainTs.Event) (first : MainTs.Event) (v : AckValue) :
  exited w = None →
  Forall (λ ev, elsewhere_main (next_child w) ev = true) evs →
  about_main (next_child w) first = true → outcome_main first = Some v →
  Forall (λ ev, about_main (next_child w) ev = true) rest →
  let w0 := MainTs.step w (MainTs.Socket (MainTs.OnRunCommand payload cb)) in
  let w1 := MainTs.run w0 evs in
  trace w0 = trace w ++ logged w ("Received command: " +:+ MainTs.command payload)
               ++ [Exec (next_child w) (MainTs.command payload) (MainTs.timeoutMs payload)]
  ∧ acks (trace (MainTs.step w1 first)) = acks (trace w1) ++ [(cb, v)]
  ∧ MainTs.run w1 (first :: rest) = MainTs.step w1 first.
Proof.
  intros Hx Hq Hf Hv Hr w0 w1.
  pose proof (runCommand_request_main w payload cb Hx) as E0. fold w0 in E0.
  destruct (run_undisturbed_main (next_child w) w0 evs Hq) as (Hx1 & Hp1 & Hc1).
  fold w1 in Hx1, Hp1, Hc1.
  assert (Hx1' : exited w1 = None) by (rewrite Hx1, E0; done).
  assert (Hc1' : children w1 !! next_child w =
                 Some (mkChild Pending true (Some (MainTs.command payload, cb)))).
  { destruct Hc1 as [_ ->]; rewrite E0; simpl; [lia | apply lookup_insert_eq]. }
  split; [by rewrite E0|].
  destruct (child_events_alike w1 (next_child w)) as [Ae Am].
  destruct first as [e | h | chunk | c' error out err | c' message]; try discriminate Hf;
    simpl in Hf; apply bool_decide_eq_true in Hf; subst c'; simpl in Hv;
    injection Hv as <-.
  - pose proof (exec_callback_resolves w1 _ cb _ true error out err Hx1' Hc1') as E.
    rewrite <- Ae in E. split.
    + rewrite E. simpl. rewrite !acks_app, acks_logged. done.
    + assert (Hc2 : children (MainTs.step w1 (MainTs.ExecCallback (next_child w) error out err))
                      !! next_child w =
                    Some (mkChild (Resolved (response_of error out err)) true
                            (Some (MainTs.command payload, cb))))
        by (rewrite E; simpl; apply lookup_insert_eq).
      exact (run_settled_main _ _ _ rest Hc2 ltac:(done) Hr).
  - pose proof (child_error_rejects w1 _ cb _ message Hx1' Hc1') as E.
    rewrite <- Am in E. split.
    + rewrite E. simpl. rewrite !acks_app, acks_logged. done.
    + assert (Hc2 : children (MainTs.step w1 (MainTs.ChildError (next_child w) message))
                      !! next_child w =
                    Some (mkChild (Rejected (RejectedWith (mkResponse (-1) "" message))) true
                            (Some (MainTs.command payload, cb))))
        by (rewrite E; simpl; apply lookup_insert_eq).
      exact (run_settled_main _ _ _ rest Hc2 ltac:(done) Hr).
Qed.

(** A command with a deadline that [exec] ends, in [main.ts]. *)
Lemma main_ts_request_is_acknowledged_witness :
  let w := MainTs.start plain_process in
  let payload := MainTs.mkPayload "sleep 60" (Some 200%Z) in
  let w0 := MainTs.step w (MainTs.Socket (MainTs.OnRunCommand payload 4)) in
  let evs := [MainTs.Socket MainTs.OnDisconnect] in
  let first := MainTs.ExecCallback 0 timeout_report "" "" in
  exited w = None
  ∧ trace w0 = trace w ++ [Exec 0 "sleep 60" (Some 200%Z)]
  ∧ acks (trace (MainTs.step (MainTs.run w0 evs) first)) =
      acks (trace (MainTs.run w0 evs)) ++ [(4, AckResponse (mkResponse (-1) "" ""))].
Proof.
  intros w payload w0 evs first.
  destruct (main_ts_request_is_acknowledged w payload 4 evs [] first _ eq_refl
              ltac:(repeat constructor) eq_refl eq_refl (Forall_nil_2 _)) as (H0 & Ha & _).
  split; [reflexivity|]. split; [exact H0 | exact Ha].
Defined.

(** ** Two input requests at a time *)

Lemma readStdin_step (w : World) (cb : nat) :
  exited w = None →
  (let w1 := Part000.step w (Part000.Socket (Part000.OnReadStdin cb)) in
   exited w1 = None ∧ stdin_flowing w1 = true ∧ stdin_once w1 = stdin_once w ++ [cb]
   ∧ trace w1 = trace w ++ match loadingInterval w with
                           | Some _ => [StdoutWrite clear_sequence]
                           | None => []
                           end ++ [StdinResume; StdinSetEncoding "utf8"])
  ∧ (let w1 := MainTs.step w (MainTs.Socket (MainTs.OnReadLine cb)) in
     exited w1 = None ∧ stdin_flowing w1 = true ∧ stdin_once w1 = stdin_once w ++ [cb]
     ∧ trace w1 = trace w ++ match loadingInterval w with
                             | Some _ => [StdoutWrite clear_sequence]
                             | None => []
                             end ++ [StdinResume; StdinSetEncoding "utf8"]).
Proof.
  destruct w; simpl; intros ->.
  destruct loadingInterval0; js_unfold; simpl; unfold clear_sequence;
    rewrite <- ?app_assoc; done.
Qed.

(** X17.  Input requests are not queued: when a second request comes
    before any input, the chunk that arrives next is handed to both, in the
    order of the requests, each with the whole chunk, and both are served;
    the chunk after that finds no request.  (Nothing is written to the
    terminal by an input request made while idle.) *)
Theorem two_input_requests_share_a_chunk (w : World) (cb1 cb2 : nat) (chunk : string) :
  exited w = None → loadingInterval w = None → stdin_once w = [] →
  (let w2 := Part000.run w [Part000.Socket (Part000.OnReadStdin cb1);
                            Part000.Socket (Part000.OnReadStdin cb2)] in
   let w3 := Part000.step w2 (Part000.StdinData chunk) in
   trace w2 = trace w ++ [StdinResume; StdinSetEncoding "utf8";
                          StdinResume; StdinSetEncoding "utf8"]
   ∧ trace w3 = trace w2 ++ [StdinPause; Ack cb1 (AckLine chunk);
                             StdinPause; Ack cb2 (AckLine chunk)]
   ∧ stdin_once w3 = [] ∧ stdin_flowing w3 = false)
  ∧ (let w2 := MainTs.run w [MainTs.Socket (MainTs.OnReadLine cb1);
                             MainTs.Socket (MainTs.OnReadLine cb2)] in
     let w3 := MainTs.step w2 (MainTs.StdinData chunk) in
     trace w2 = trace w ++ [StdinResume; StdinSetEncoding "utf8";
                            StdinResume; StdinSetEncoding "utf8"]
     ∧ trace w3 = trace w2 ++ [StdinPause; Ack cb1 (AckLine chunk);
                               StdinPause; Ack cb2 (AckLine chunk)]
     ∧ stdin_once w3 = [] ∧ stdin_flowing w3 = false).
Proof.
  intros Hx Hl Ho. split.
  - intros w2 w3.
    destruct (readStdin_step w cb1 Hx) as [(Hx1 & Hf1 & Ho1 & Ht1) _].
    set (w1 := Part000.step w (Part000.Socket (Part000.OnReadStdin cb1))) in *.
    assert (Hl1 : loadingInterval w1 = None).
    { unfold w1. destruct w; simpl in *; subst. by js_unfold. }
    destruct (readStdin_step w1 cb2 Hx1) as [(Hx2 & Hf2 & Ho2 & Ht2) _].
    change (Part000.step w1 (Part000.Socket (Part000.OnReadStdin cb2))) with w2
      in Hx2, Hf2, Ho2, Ht2.
    rewrite Hl in Ht1. rewrite Hl1, Ht1 in Ht2. rewrite Ho1, Ho in Ho2. simpl in *.
    assert (E : w3 = set_stdin_flowing false
                       (set_stdin_once [] (set_trace (trace w2 ++ deliveries chunk (stdin_once w2)) w2))).
    { unfold w3, Part000.step. rewrite Hx2. apply stdin_data_delivers; [done|].
      by rewrite Ho2. }
    rewrite E, Ho2. simpl. rewrite Ht2, <- !app_assoc. done.
  - intros w2 w3.
    destruct (readStdin_step w cb1 Hx) as [_ (Hx1 & Hf1 & Ho1 & Ht1)].
    set (w1 := MainTs.step w (MainTs.Socket (MainTs.OnReadLine cb1))) in *.
    assert (Hl1 : loadingInterval w1 = None).
    { unfold w1. destruct w; simpl in *; subst. by js_unfold. }
    destruct (readStdin_step w1 cb2 Hx1) as [_ (Hx2 & Hf2 & Ho2 & Ht2)].
    change (MainTs.step w1 (MainTs.Socket (MainTs.OnReadLine cb2))) with w2
      in Hx2, Hf2, Ho2, Ht2.
    rewrite Hl in Ht1. rewrite Hl1, Ht1 in Ht2. rewrite Ho1, Ho in Ho2. simpl in *.
    assert (E : w3 = set_stdin_flowing false
                       (set_stdin_once [] (set_trace (trace w2 ++ deliveries chunk (stdin_once w2)) w2))).
    { unfold w3, MainTs.step. rewrite Hx2. apply stdin_data_delivers; [done|].
      by rewrite Ho2. }
    rewrite E, Ho2. simpl. rewrite Ht2, <- !app_assoc. done.
Qed.

(** Two requests after the connection, and one line. *)
Lemma two_input_requests_share_a_chunk_witness :
  let w := Part000.run (Part000.start plain_process) [Part000.Socket Part000.OnConnect] in
  let w2 := Part000.run w [Part000.Socket (Part000.OnReadStdin 1);
                           Part000.Socket (Part000.OnReadStdin 2)] in
  exited w = None ∧ loadingInterval w = None ∧ stdin_once w = []
  ∧ trace (Part000.step w2 (Part000.StdinData ("yes" +:+ LF))) =
      trace w2 ++ [StdinPause; Ack 1 (AckLine ("yes" +:+ LF));
                   StdinPause; Ack 2 (AckLine ("yes" +:+ LF))].
Proof.
  intros w w2.
  destruct (two_input_requests_share_a_chunk w 1 2 ("yes" +:+ LF) eq_refl eq_refl eq_refl)
    as [(_ & H & _) _].
  do 3 (split; [reflexivity|]). exact H.
Defined.

(** ** Acknowledgments in the step of the request *)

Lemma acks_none (l : list Effect) : Forall (λ e, is_ack e = false) l → acks l = [].
Proof.
  induction 1 as [|e l He _ IH]; [done|].
  unfold acks in *. rewrite bind_cons, IH. by destruct e.
Qed.

Lemma fire_never_acks h : respects (grows never_an_ack) (Part000.fire h).
Proof. respects_walk ltac:(fail) ltac:(grows_leaf ltac:(done)). Qed.

Lemma fire_never_acks_main h : respects (grows never_an_ack) (MainTs.fire h).
Proof. respects_walk ltac:(fail) ltac:(grows_leaf ltac:(done)). Qed.

Lemma handle_acks (w : World) (e : Part000.ServerEvent) :
  exited w = None →
  match e with
  | Part000.OnRunCommand payload _ cs => Part000.stdin payload = None ∨ cs = true
  | _ => True
  end →
  acks (trace (Part000.step w (Part000.Socket e))) =
    acks (trace w) ++ immediate_ack (proc w) e.
Proof.
  intros Hx He.
  destruct e as [| cb | payload cb cs | text cb | cb | text t cb | cb | |];
    try (destruct w; simpl in *; subst;
         destruct (truthy_string (env proc0 !! "CODAPT_DEBUG")) eqn:Hd;
         destruct loadingInterval0; try destruct t;
         js_unfold; simpl; rewrite ?Hd; simpl;
         rewrite ?acks_app; simpl; rewrite ?app_nil_r; reflexivity).
  rewrite (runCommand_request w payload cb cs Hx He). simpl.
  rewrite !acks_app, acks_logged. simpl.
  rewrite (acks_none (stdin_ops _ _)), app_nil_r; [done|].
  destruct (Part000.stdin payload); by repeat constructor.
Qed.

Lemma handle_acks_main (w : World) (e : MainTs.ServerEvent) :
  exited w = None →
  acks (trace (MainTs.step w (MainTs.Socket e))) =
    acks (trace w) ++ immediate_ack_main (proc w) e.
Proof.
  intros Hx.
  destruct e as [| cb | payload cb | text cb | cb | text t cb | cb | |];
    try (destruct w; simpl in *; subst;
         destruct (truthy_string (env proc0 !! "CODAPT_DEBUG")) eqn:Hd;
         destruct loadingInterval0; try destruct t;
         js_unfold; simpl; rewrite ?Hd; simpl;
         rewrite ?acks_app; simpl; rewrite ?app_nil_r; reflexivity).
  rewrite (runCommand_request_main w payload cb Hx). simpl.
  rewrite !acks_app, acks_logged. simpl. by rewrite app_nil_r.
Qed.

(** X18.  Which requests are acknowledged in their own step, in both
    variants and whatever the terminal is doing: the environment request
    (with the process information), the direct output, the start and the
    stop of loading (with nothing), each exactly once.  The connection, the
    termination, the disconnection, an input request, an execution request
    whose executor does not throw, and the timers acknowledge nothing in
    their step. *)
Theorem acknowledged_in_the_step (w : World) :
  exited w = None →
  (∀ e, match e with
        | Part000.OnRunCommand payload _ cs => Part000.stdin payload = None ∨ cs = true
        | _ => True
        end →
        acks (trace (Part000.step w (Part000.Socket e))) =
          acks (trace w) ++ immediate_ack (proc w) e)
  ∧ (∀ e, acks (trace (MainTs.step w (MainTs.Socket e))) =
            acks (trace w) ++ immediate_ack_main (proc w) e)
  ∧ (∀ h, acks (trace (Part000.step w (Part000.TimerFire h))) = acks (trace w)
          ∧ acks (trace (MainTs.step w (MainTs.TimerFire h))) = acks (trace w)).
Proof.
  intros Hx. split_and!.
  - intros e He. by apply handle_acks.
  - intros e. by apply handle_acks_main.
  - intros h. unfold Part000.step, MainTs.step. rewrite Hx. split.
    + destruct (fire_never_acks h w) as (_ & new & Ht & Hall).
      change (exec_M (Part000.dispatch (Part000.TimerFire h)) w) with (Part000.fire h w).2.
      by rewrite Ht, acks_app, (acks_none new), app_nil_r.
    + destruct (fire_never_acks_main h w) as (_ & new & Ht & Hall).
      change (exec_M (MainTs.dispatch (MainTs.TimerFire h)) w) with (MainTs.fire h w).2.
      by rewrite Ht, acks_app, (acks_none new), app_nil_r.
Qed.

(** A start of loading over the connection spinner, with the debug
    toggle set. *)
Lemma acknowledged_in_the_step_witness :
  let w := Part000.start debug_process in
  exited w = None
  ∧ acks (trace (Part000.step w (Part000.Socket (Part000.OnStartLoading "Working" None 8)))) =
      [(8, AckVoid)].
Proof.
  intros w.
  assert (Hx : exited w = None) by (vm_compute; reflexivity).
  destruct (acknowledged_in_the_step w Hx) as [H _].
  split; [exact Hx|].
  exact (H (Part000.OnStartLoading "Working" None 8) I).
Defined.
